(** * The research agent of web_search.py

    A shallow embedding of [ResearchAgent] (src/web_search.py): construction
    with the credential fallback, the per-query search with its top-N slice,
    the query plan decoded from the language model's text, the fan-out over a
    worker pool, the rendering of the gathered results and the returned
    dictionary; of the command line [_cli] of the same file, with the trace
    it saves as JSON; and of the chat page of src/search.py, one run of its
    script at a time.

    Conventions.
    - A Python [str] is a list of Unicode code points ([list N]); [u "..."]
      embeds an ASCII literal.
    - A dict with uniform values is a [gmap]; a dict with fixed keys of
      different types is a record.
    - The remote services and the interpreter's built-ins that the module only
      calls (the language model, the search provider, [json.loads], [str()] of a
      value that is no string) are variables of the section [Agent]: every
      theorem holds for whatever they answer.  Module [JSON] gives a reference
      decoder for the concrete scenarios.
    - [print] appends a line to the standard output, which [run] returns next
      to its result.
    - The services answer and [print] succeeds: an exception of theirs ends
      [run] before it returns and is not part of the model.
    - The files are a map from a path's text to the content; writing one
      succeeds.
    - The page of the chat is the list of the elements the script creates.
      The arguments of the command line are taken as parsed, and the reruns
      of the page as the framework makes them: the script runs again, once,
      with no input. *)

From Stdlib Require Import Ascii String.
From stdpp Require Import base numbers option list strings gmap.

Open Scope N_scope.
Open Scope list_scope.

(** ** Text *)

Abbreviation str := (list N).

(** An ASCII literal as a [str]. *)
Definition u (s : string) : str :=
  N_of_ascii <$> list_ascii_of_string s.

(** The characters [str.isspace] accepts, which are the ones [str.strip]
    removes: the ASCII controls 9-13 and 28-31, the space, NEL, the no-break
    space and the Unicode space separators. *)
Definition isspace (c : N) : bool :=
  ((9 <=? c) && (c <=? 13)) || ((28 <=? c) && (c <=? 32))
  || (c =? 133) || (c =? 160) || (c =? 5760)
  || ((8192 <=? c) && (c <=? 8202))
  || (c =? 8232) || (c =? 8233) || (c =? 8239) || (c =? 8287) || (c =? 12288).

Fixpoint lstrip (s : str) : str :=
  match s with
  | c :: s' => if isspace c then lstrip s' else s
  | [] => []
  end.

Definition rstrip (s : str) : str := reverse (lstrip (reverse s)).

(** [s.strip()] *)
Definition strip (s : str) : str := rstrip (lstrip s).

(** [sep.join(parts)] *)
Fixpoint join (sep : str) (parts : list str) : str :=
  match parts with
  | [] => []
  | [p] => p
  | p :: ps => p ++ sep ++ join sep ps
  end.

Arguments u : simpl never.

Definition nl : str := [10].
Definition dquote : str := [34].
Definition arrow : str := [8594].

(** ** Values *)

(** What [json.loads] can return.  A float keeps the text it was read from;
    a dict keeps its items in the order of the text. *)
#[warnings="-register-all"]
Inductive value : Type :=
| VNone
| VBool (b : bool)
| VInt (z : Z)
| VFloat (lexeme : str)
| VStr (s : str)
| VList (l : list value)
| VDict (items : list (str * value)).

(** [isinstance(v, list)] *)
Definition is_list (v : value) : bool :=
  match v with VList _ => true | _ => false end.

(** [isinstance(v, str)] *)
Definition is_str (v : value) : bool :=
  match v with VStr _ => true | _ => false end.

(** Truth value of an optional string: [None] and [""] are false. *)
Definition truthy (o : option str) : bool :=
  match o with
  | Some (_ :: _) => true
  | _ => false
  end.

(** A credential that is not set: absent or empty. *)
Definition unset (o : option str) : Prop := o = None \/ o = Some [].

(** [a or b] on optional strings. *)
Definition py_or (a b : option str) : option str :=
  if truthy a then a else b.

(** [l[:k]]: the first [k] items, and for a negative [k] all but the last
    [-k]. *)
Definition slice_to {A} (k : Z) (l : list A) : list A :=
  if (k <? 0)%Z then take (Z.to_nat (Z.of_nat (length l) + k)) l
  else take (Z.to_nat k) l.

(** ** A reference JSON decoder

    The grammar [json.loads] reads from a [str]: RFC 8259 with the constants
    [NaN], [Infinity] and [-Infinity], strict strings (no raw control
    character), surrogate pairs joined.  [None] stands for the decoder's
    exception.  The interpreter's limits (nesting depth, digits of an integer)
    are not part of it. *)
Module JSON.

Definition is_ws (c : N) : bool :=
  (c =? 32) || (c =? 9) || (c =? 10) || (c =? 13).

Fixpoint skip_ws (s : str) : str :=
  match s with
  | c :: s' => if is_ws c then skip_ws s' else s
  | [] => []
  end.

Definition is_digit (c : N) : bool := (48 <=? c) && (c <=? 57).

(** The leading digits of [s] and what follows them. *)
Fixpoint digits (s : str) : str * str :=
  match s with
  | c :: s' => if is_digit c then let '(d, r) := digits s' in (c :: d, r) else ([], s)
  | [] => ([], [])
  end.

Definition hex (c : N) : option N :=
  if is_digit c then Some (c - 48)
  else if (97 <=? c) && (c <=? 102) then Some (c - 87)
  else if (65 <=? c) && (c <=? 70) then Some (c - 55)
  else None.

Definition hex4 (a b c d : N) : option N :=
  match hex a, hex b, hex c, hex d with
  | Some a, Some b, Some c, Some d => Some (((a * 16 + b) * 16 + c) * 16 + d)
  | _, _, _, _ => None
  end.

Definition high_surrogate (c : N) : bool := (55296 <=? c) && (c <=? 56319).
Definition low_surrogate (c : N) : bool := (56320 <=? c) && (c <=? 57343).
Definition join_surrogates (hi lo : N) : N :=
  65536 + ((hi - 55296) * 1024 + (lo - 56320)).

(** A one-letter escape. *)
Definition backslash (e : N) : option N :=
  if e =? 34 then Some 34 else if e =? 92 then Some 92
  else if e =? 47 then Some 47 else if e =? 98 then Some 8
  else if e =? 102 then Some 12 else if e =? 110 then Some 10
  else if e =? 114 then Some 13 else if e =? 116 then Some 9
  else None.

(** The string whose opening quote has been read: its content and the text
    after the closing quote. *)
Fixpoint scanstring (s : str) : option (str * str) :=
  match s with
  | [] => None
  | c :: s1 =>
    if c =? 34 then Some ([], s1)
    else if c =? 92 then
      match s1 with
      | [] => None
      | e :: s2 =>
        if e =? 117 then
          match s2 with
          | h1 :: h2 :: h3 :: h4 :: s3 =>
            match hex4 h1 h2 h3 h4 with
            | None => None
            | Some uni =>
              let single := '(t, r) ← scanstring s3; Some (uni :: t, r) in
              if high_surrogate uni then
                match s3 with
                | b :: v :: g1 :: g2 :: g3 :: g4 :: s4 =>
                  if (b =? 92) && (v =? 117) then
                    match hex4 g1 g2 g3 g4 with
                    | None => None
                    | Some uni2 =>
                      if low_surrogate uni2
                      then '(t, r) ← scanstring s4; Some (join_surrogates uni uni2 :: t, r)
                      else single
                    end
                  else single
                | _ => single
                end
              else single
            end
          | _ => None
          end
        else
          match backslash e with
          | Some x => '(t, r) ← scanstring s2; Some (x :: t, r)
          | None => None
          end
      end
    else if c <? 32 then None
    else '(t, r) ← scanstring s1; Some (c :: t, r)
  end.

(** The value of a run of decimal digits. *)
Definition decimal (d : str) : Z :=
  foldl (fun acc c => (acc * 10 + Z.of_N (c - 48))%Z) 0%Z d.

(** The integer part of a number: [0], or digits that start with 1-9. *)
Definition int_part (s : str) : option (str * str) :=
  match s with
  | c :: s' =>
    if c =? 48 then Some ([c], s')
    else if is_digit c then Some (digits s)
    else None
  | [] => None
  end.

(** [.digits], when it is there. *)
Definition frac_part (s : str) : str * str :=
  match s with
  | c :: s' =>
    if c =? 46 then
      match digits s' with
      | ([], _) => ([], s)
      | (d, r) => (c :: d, r)
      end
    else ([], s)
  | [] => ([], s)
  end.

(** [e], an optional sign and digits, when all of it is there. *)
Definition exp_part (s : str) : str * str :=
  match s with
  | c :: s' =>
    if (c =? 101) || (c =? 69) then
      let '(sign, s'') :=
        match s' with
        | g :: t => if (g =? 45) || (g =? 43) then ([g], t) else ([], s')
        | [] => ([], s')
        end in
      match digits s'' with
      | ([], _) => ([], s)
      | (d, r) => (c :: sign ++ d, r)
      end
    else ([], s)
  | [] => ([], s)
  end.

Definition number (s : str) : option (value * str) :=
  let '(neg, s0) :=
    match s with
    | c :: s' => if c =? 45 then (true, s') else (false, s)
    | [] => (false, s)
    end in
  '(i, s1) ← int_part s0;
  let '(f, s2) := frac_part s1 in
  let '(e, s3) := exp_part s2 in
  match f, e with
  | [], [] => Some (VInt (if neg then - decimal i else decimal i)%Z, s3)
  | _, _ => Some (VFloat ((if neg then [45] else []) ++ i ++ f ++ e), s3)
  end.

(** [s] without the prefix [p], when it starts with it. *)
Fixpoint after (p s : str) : option str :=
  match p, s with
  | [], _ => Some s
  | a :: p', b :: s' => if a =? b then after p' s' else None
  | _ :: _, [] => None
  end.

(** The items of an array after its first value: [, value]* and the closing
    bracket.  [fuel] bounds the number of items. *)
Fixpoint array_tail (scan : str -> option (value * str)) (fuel : nat) (s : str)
  : option (list value * str) :=
  match fuel with
  | O => None
  | S fuel =>
    match skip_ws s with
    | c :: s' =>
      if c =? 93 then Some ([], s')
      else if c =? 44 then
        '(v, r) ← scan (skip_ws s');
        '(vs, r') ← array_tail scan fuel r;
        Some (v :: vs, r')
      else None
    | [] => None
    end
  end.

(** One [key : value] pair; [s] starts at the key's opening quote. *)
Definition pair (scan : str -> option (value * str)) (s : str)
  : option ((str * value) * str) :=
  match s with
  | c :: s' =>
    if c =? 34 then
      '(k, r) ← scanstring s';
      match skip_ws r with
      | d :: r' =>
        if d =? 58 then
          '(v, r'') ← scan (skip_ws r');
          Some ((k, v), r'')
        else None
      | [] => None
      end
    else None
  | [] => None
  end.

Fixpoint object_tail (scan : str -> option (value * str)) (fuel : nat) (s : str)
  : option (list (str * value) * str) :=
  match fuel with
  | O => None
  | S fuel =>
    match skip_ws s with
    | c :: s' =>
      if c =? 125 then Some ([], s')
      else if c =? 44 then
        '(kv, r) ← pair scan (skip_ws s');
        '(kvs, r') ← object_tail scan fuel r;
        Some (kv :: kvs, r')
      else None
    | [] => None
    end
  end.

(** One value at the start of [s].  [fuel] bounds the nesting depth. *)
Fixpoint scan_once (fuel : nat) (s : str) : option (value * str) :=
  match fuel with
  | O => None
  | S fuel =>
    match s with
    | [] => None
    | c :: s' =>
      if c =? 34 then '(t, r) ← scanstring s'; Some (VStr t, r)
      else if c =? 123 then
        match skip_ws s' with
        | d :: r =>
          if d =? 125 then Some (VDict [], r)
          else
            '(kv, r') ← pair (scan_once fuel) (d :: r);
            '(kvs, r'') ← object_tail (scan_once fuel) (length s) r';
            Some (VDict (kv :: kvs), r'')
        | [] => None
        end
      else if c =? 91 then
        match skip_ws s' with
        | d :: r =>
          if d =? 93 then Some (VList [], r)
          else
            '(v, r') ← scan_once fuel (d :: r);
            '(vs, r'') ← array_tail (scan_once fuel) (length s) r';
            Some (VList (v :: vs), r'')
        | [] => None
        end
      else
        match after (u "null") s, after (u "true") s, after (u "false") s with
        | Some r, _, _ => Some (VNone, r)
        | _, Some r, _ => Some (VBool true, r)
        | _, _, Some r => Some (VBool false, r)
        | _, _, _ =>
          match number s with
          | Some x => Some x
          | None =>
            match after (u "NaN") s, after (u "Infinity") s, after (u "-Infinity") s with
            | Some r, _, _ => Some (VFloat (u "NaN"), r)
            | _, Some r, _ => Some (VFloat (u "Infinity"), r)
            | _, _, Some r => Some (VFloat (u "-Infinity"), r)
            | _, _, _ => None
            end
          end
        end
    end
  end.

(** [json.loads(s)]: one value, white space around it, nothing else. *)
Definition loads (s : str) : option value :=
  '(v, r) ← scan_once (S (length s)) (skip_ws s);
  match skip_ws r with
  | [] => Some v
  | _ :: _ => None
  end.

End JSON.

(** ** Standard output *)

(** A computation that prints: the lines it wrote and its result. *)
Definition Out (A : Type) : Type := list str * A.

#[global] Instance Out_ret : MRet Out := fun _ a => ([], a).
#[global] Instance Out_bind : MBind Out := fun _ _ k m =>
  let '(o1, a) := m in let '(o2, b) := k a in (o1 ++ o2, b).

(** [print(line)] *)
Definition print (line : str) : Out unit := ([line], tt).

(** [if b: m] *)
Definition when (b : bool) (m : Out unit) : Out unit :=
  if b then m else mret tt.

(** ** The worker pool

    [pool.map(f, xs)] submits one task per item and hands the results back
    in the order of [xs].  The order in which the workers run the tasks is not
    fixed: [sched] is the scheduler's sequence of choices, each entry picking
    (modulo their number) one of the tasks still pending; when the choices
    run out the pending tasks run in the order of submission.  Every task
    writes the slot of its own position, and leaving the [with] block waits
    for all of them. *)
Section Pool.
Context {A B : Type} (f : A -> Out B).

(** Task [i] runs on its argument [x]: its lines go to the output, its
    result to slot [i]. *)
Definition finish (st : Out (list (option B))) (task : nat * A) : Out (list (option B)) :=
  slots ← st;
  y ← f task.2;
  mret (<[task.1 := Some y]> slots).

Fixpoint drain (pending : list (nat * A)) (sched : list nat)
    (st : Out (list (option B))) : Out (list (option B)) :=
  match sched with
  | [] => foldl finish st pending
  | k :: sched' =>
    let j := (k mod length pending)%nat in
    match pending !! j with
    | Some task => drain (delete j pending) sched' (finish st task)
    | None => st
    end
  end.

Definition pool_map (xs : list A) (sched : list nat) : Out (list B) :=
  slots ← drain (imap (fun i x => (i, x)) xs) sched (mret (replicate (length xs) None));
  mret (omap id slots).

End Pool.

(** ** The agent *)

(** A search result as [_search_web] builds it. *)
Record SearchResult := {
  title : str;
  snippet : str;
  url : str
}.

(** What [_search_web] returns for one query. *)
Record QueryBlock := {
  query : value;
  results : list SearchResult
}.

(** An entry of [steps]. *)
Record Step := {
  step_type : str;
  content : str
}.

(** What [run] returns. *)
Record ResearchResult := {
  question : str;
  answer : str;
  sources : list str;
  steps : list Step
}.

(** The attributes [__init__] sets. *)
Record ResearchAgent := {
  model : str;
  topn : Z;
  debug : bool;
  gemini_key : option str;
  serp_key : option str;
  sys_prompt : str
}.

Inductive exception :=
| RuntimeError (msg : str).

Definition the_sys_prompt : str :=
  u "You are a research assistant working as of the current date, 2025-11-02. Your task is to provide answers based on today's date, ensuring all information is current and accurate." ++ nl ++
  u "When the user requests information about current events, such as live scores, ongoing matches, or recent data, you are required to search relevant, authoritative websites for the most up-to-date information and present it." ++ nl ++
  u "If the user asks for real-time data like the score of a cricket match, use web search tools to find and provide the most accurate and current results available." ++ nl ++
  u "Always cite the sources you reference in Markdown format, like this: [Source](https://example.com)." ++ nl ++
  u "Your responses should be concise, factual, and supported by the most recent information from trustworthy sources.".

(** [ResearchAgent(model, topn, debug, gemini_key, serpapi_key)] in the
    environment [env] ([os.getenv] is the lookup in it). *)
Definition init (env : gmap str str) (model : str) (topn : Z) (debug : bool)
    (gemini_key serpapi_key : option str) : exception + ResearchAgent :=
  let gemini_key := py_or gemini_key (env !! u "GEMINI_API_KEY") in
  let serp_key := py_or serpapi_key (env !! u "SERPAPI_API_KEY") in
  if negb (truthy gemini_key) || negb (truthy serp_key)
  then inl (RuntimeError (u "GEMINI_API_KEY and SERPAPI_API_KEY must be set."))
  else inr {| model := model; topn := topn; debug := debug;
              gemini_key := gemini_key; serp_key := serp_key;
              sys_prompt := the_sys_prompt |}.

(** ** The JSON encoder

    [json.dumps(result, indent=2)] for the dictionary [run] returns: strings
    with everything outside printable ASCII escaped (the encoder's default),
    one item per line, two spaces per level. *)

(** The characters a JSON text can start with: white space, a quote, a
    bracket, a brace, a minus sign, a digit, or the first letter of [null],
    [true], [false], [NaN] and [Infinity]. *)
Definition value_start (c : N) : bool :=
  JSON.is_ws c || (c =? 34) || (c =? 91) || (c =? 123) || (c =? 45) || JSON.is_digit c
  || (c =? 110) || (c =? 116) || (c =? 102) || (c =? 78) || (c =? 73).

(** A code point that is a character: below 0x110000 and no surrogate. *)
Definition scalar (c : N) : bool :=
  (c <? 1114112) && negb ((55296 <=? c) && (c <=? 57343)).

Definition hex_digit (d : N) : N := if d <? 10 then 48 + d else 87 + d.

(** The escape of a code unit in four lower-case hexadecimal digits. *)
Definition u_escape (n : N) : str :=
  [92; 117; hex_digit (n / 4096); hex_digit (n / 256 mod 16);
   hex_digit (n / 16 mod 16); hex_digit (n mod 16)].

(** One character of a string: the short escapes, printable ASCII as it is,
    and anything else as one escaped code unit or as a surrogate pair. *)
Definition escape_char (c : N) : str :=
  if c =? 34 then [92; 34]
  else if c =? 92 then [92; 92]
  else if c =? 10 then [92; 110]
  else if c =? 13 then [92; 114]
  else if c =? 9 then [92; 116]
  else if c =? 12 then [92; 102]
  else if c =? 8 then [92; 98]
  else if (32 <=? c) && (c <=? 126) then [c]
  else if c <? 65536 then u_escape c
  else u_escape (55232 + c / 1024) ++ u_escape (56320 + c mod 1024).

Definition dumps_str (s : str) : str :=
  dquote ++ (s ≫= escape_char) ++ dquote.

(** The line break before an item at nesting [level]. *)
Definition newline_indent (level : nat) : str := nl ++ replicate (2 * level) 32.

(** A list whose items are already encoded, closing at nesting [level]. *)
Definition dumps_list (level : nat) (items : list str) : str :=
  match items with
  | [] => u "[]"
  | _ :: _ =>
    u "[" ++ newline_indent (S level)
      ++ join (u "," ++ newline_indent (S level)) items
      ++ newline_indent level ++ u "]"
  end.

(** A dictionary whose values are already encoded. *)
Definition dumps_dict (level : nat) (items : list (str * str)) : str :=
  match items with
  | [] => u "{}"
  | _ :: _ =>
    u "{" ++ newline_indent (S level)
      ++ join (u "," ++ newline_indent (S level))
           ((fun kv => dumps_str kv.1 ++ u ": " ++ kv.2) <$> items)
      ++ newline_indent level ++ u "}"
  end.

Definition dumps_step (level : nat) (step : Step) : str :=
  dumps_dict level
    [(u "type", dumps_str (step_type step)); (u "content", dumps_str (content step))].

(** [json.dumps(result, indent=2)] *)
Definition json_dumps (result : ResearchResult) : str :=
  dumps_dict 0
    [(u "question", dumps_str (question result));
     (u "answer", dumps_str (answer result));
     (u "sources", dumps_list 1 (dumps_str <$> sources result));
     (u "steps", dumps_list 1 (dumps_step 2 <$> steps result))].

(** The dictionary [run] returns, as a value. *)
Definition step_value (step : Step) : value :=
  VDict [(u "type", VStr (step_type step)); (u "content", VStr (content step))].

Definition result_value (result : ResearchResult) : value :=
  VDict [(u "question", VStr (question result));
         (u "answer", VStr (answer result));
         (u "sources", VList (VStr <$> sources result));
         (u "steps", VList (step_value <$> steps result))].

(** Every string of the result is made of characters. *)
Definition well_formed (result : ResearchResult) : Prop :=
  Forall (fun c => scalar c = true) (question result)
  /\ Forall (fun c => scalar c = true) (answer result)
  /\ Forall (Forall (fun c => scalar c = true)) (sources result)
  /\ Forall (fun step => Forall (fun c => scalar c = true) (step_type step)
                         /\ Forall (fun c => scalar c = true) (content step))
       (steps result).

(** [e] is the text of [v] for [scan]: scanning it gives [v] and leaves what
    follows, and it begins with a character that is no white space and
    closes no list or dictionary. *)
Definition token (scan : str -> option (value * str)) (e : str) (v : value) : Prop :=
  (forall r, scan (e ++ r) = Some (v, r))
  /\ exists c t, e = c :: t /\ JSON.is_ws c = false /\ c <> 93 /\ c <> 125.

(** A character a JSON string holds as it is. *)
Definition plain (c : N) : Prop := 32 <= c /\ c <> 34 /\ c <> 92.

(** White space of the JSON grammar. *)
Definition blank (w : str) : Prop := Forall (fun c => JSON.is_ws c = true) w.

(** A string as it stands in a JSON text: its characters between quotes, and
    the white space before and behind it. *)
Record literal := { lead : str; chars : str; trail : str }.

Definition spaced (it : literal) : str :=
  lead it ++ dquote ++ chars it ++ dquote ++ trail it.

(** A JSON array of strings in any layout: [w] behind the opening bracket,
    then the strings, each with its white space, and commas between them. *)
Definition array_layout (w : str) (items : list literal) : str :=
  u "[" ++ w ++ join (u ",") (spaced <$> items) ++ u "]".

(** A plain string between white space. *)
Definition tidy (it : literal) : Prop :=
  blank (lead it) /\ Forall plain (chars it) /\ blank (trail it).

(** ** The command line and the chat page: their data *)

(** [for x in l: body(x)] *)
Definition for_each {A} (l : list A) (body : A -> Out unit) : Out unit :=
  foldl (fun acc x => acc;; body x) (mret tt) l.

(** The arguments as [parse_args] returns them; [cfg_outfile] is the text of
    the path. *)
Record Namespace := {
  cfg_query : str;
  cfg_model : str;
  cfg_topn : Z;
  cfg_outfile : option str;
  cfg_debug : bool
}.

(** The elements the script of the chat page creates. *)
#[warnings="-register-all"]
Inductive element : Type :=
| st_set_page_config (page_title page_icon layout : str)
| st_title (body : str)
| st_caption (body : str)
| st_write (body : str)
| st_markdown (body : str)
| st_code (body language : str)
| st_chat_input (placeholder : str)
| st_chat_message (name : str) (body : list element)
| st_spinner (text : str) (body : list element)
| st_expander (label : str) (body : list element).

(** An entry of [st.session_state.messages]; a user's entry has no
    [sources] key. *)
Record message := {
  role : str;
  msg_content : str;
  msg_sources : option (list str)
}.

(** [st.session_state]: a key that is not set is [None]. *)
Record session_state := {
  messages : option (list message);
  agent : option ResearchAgent
}.

(** One run of the script: the elements it created, what it printed, the
    session state it leaves, the exception that ended it, and whether it
    asked to run again. *)
Record script_run := {
  page : list element;
  stdout : list str;
  state : session_state;
  raised : option exception;
  rerun : bool
}.

Definition heading : list element :=
  [st_set_page_config (u "web-searcher") (u "M") (u "centered");
   st_title (u "Web Search Agent");
   st_caption (u "You can ask any question " ++ [8212]
               ++ u " the agent will research in real time and provide answers with cite url.")].

(** The list of links under an answer. *)
Definition show_sources (sources : list str) : list element :=
  st_markdown (u "**" ++ [128279] ++ u " Sources:**")
  :: ((fun url => st_markdown (u "- [" ++ url ++ u "](" ++ url ++ u ")")) <$> sources).

(** One round of the loop over the stored messages. *)
Definition show_message (msg : message) : element :=
  if bool_decide (role msg = u "user")
  then st_chat_message (u "user") [st_write (msg_content msg)]
  else st_chat_message (u "assistant")
         (st_markdown (msg_content msg)
          :: match msg_sources msg with
             | Some (url :: urls) => show_sources (url :: urls)
             | _ => []
             end).

(** The session state of a page that has not run yet. *)
Definition new_session : session_state := {| messages := None; agent := None |}.

(** An element is, or holds, the expander of the debug trace. *)
Fixpoint has_expander (e : element) : bool :=
  match e with
  | st_expander _ _ => true
  | st_chat_message _ body | st_spinner _ body => existsb has_expander body
  | _ => false
  end.

(** ** Test doubles

    Fixed answers for the two services, used by the scenarios at the end. *)
Module Scenario.

(** A model that answers [plan] to the search prompt (the prompt that ends
    with the example array) and [ans] to any other. *)
Definition model_stub (plan ans : str) (model : str) (key : option str) (prompt : str) : str :=
  if bool_decide (last prompt = Some 93) then plan else ans.

(** A provider that returns [data] for every query. *)
Definition provider_stub (data : list (gmap str str)) (q : value) (key : option str)
    (num : Z) : gmap str (list (gmap str str)) :=
  {[ u "organic_results" := data ]}.

Definition str_stub (v : value) : str := u "<value>".

Definition env : gmap str str :=
  {[ u "GEMINI_API_KEY" := u "g-key"; u "SERPAPI_API_KEY" := u "s-key" ]}.

(** The agent [ResearchAgent(topn=n, debug=d)] in [env]. *)
Definition agent (n : Z) (d : bool) : ResearchAgent :=
  {| model := u "gemini-2.5-flash"; topn := n; debug := d;
     gemini_key := Some (u "g-key"); serp_key := Some (u "s-key");
     sys_prompt := the_sys_prompt |}.

Definition paris : gmap str str :=
  {[ u "title" := u "Paris"; u "snippet" := u "Paris is the capital...";
     u "link" := u "https://example.com/paris" ]}.

(** A record with a title only, numbered [i]. *)
Definition numbered (i : nat) : gmap str str :=
  {[ u "title" := [48 + N.of_nat i] ]}.

(** A JSON array of strings as the model would write it. *)
Definition array_text (items : list str) : str :=
  u "[" ++ join (u ", ") ((fun s => dquote ++ s ++ dquote) <$> items) ++ u "]".

(** The arguments [-q x -o out.json]. *)
Definition cfg : Namespace :=
  {| cfg_query := u "x"; cfg_model := u "gemini-2.5-flash"; cfg_topn := 10;
     cfg_outfile := Some (u "out.json"); cfg_debug := false |}.

(** The array [["a"]] inside a Markdown code fence. *)
Definition fenced : str :=
  u "```json" ++ nl ++ array_text [u "a"] ++ nl ++ u "```".

(** Three strings of an array laid out unevenly, on two lines: no space
    around the first, a space behind the second, a line feed and a space
    before the third. *)
Definition uneven : list literal :=
  [ {| lead := []; chars := u "a"; trail := [] |};
    {| lead := []; chars := u "b"; trail := u " " |};
    {| lead := nl ++ u " "; chars := u "c"; trail := [] |} ].

(** Two blocks with results: a full record and one made of the placeholders,
    then a single record. *)
Definition paris_block : QueryBlock :=
  {| query := VStr (u "capital of France");
     results := [ {| title := u "Paris"; snippet := u "Paris is the capital...";
                     url := u "https://example.com/paris" |};
                  {| title := u "(untitled)"; snippet := u "(no snippet)"; url := [] |} ] |}.

Definition rome_block : QueryBlock :=
  {| query := VStr (u "capital of Italy");
     results := [ {| title := u "Rome"; snippet := u "Rome is the capital...";
                     url := u "https://example.com/rome" |} ] |}.

(** Three interactions: a text, nothing, another text. *)
Definition inputs : list (option str * list nat) :=
  [(Some (u "hi"), []); (None, []); (Some (u "x"), [1%nat])].

End Scenario.

Section Agent.

(** [genai.GenerativeModel(model).generate_content(prompt).text], for the
    configured key. *)
Variable generate_content : str -> option str -> str -> str.

(** [GoogleSearch({"q": q, "api_key": key, "num": num}).get_dict()], as far as
    the agent reads it: the lists of records it holds. *)
Variable get_dict : value -> option str -> Z -> gmap str (list (gmap str str)).

(** [json.loads]; [None] when it raises. *)
Variable json_loads : str -> option value.

(** [str(v)] for a value that is no string. *)
Variable str_of : value -> str.

(** [f"{v}"] *)
Definition fmt (v : value) : str :=
  match v with
  | VStr s => s
  | _ => str_of v
  end.

(** The record [_search_web] appends for a provider record [r]. *)
Definition result_of (r : gmap str str) : SearchResult :=
  let title := default (u "(untitled)") (r !! u "title") in
  let snippet := default (u "(no snippet)") (r !! u "snippet") in
  let link := default (u "") (r !! u "link") in
  {| title := title; snippet := snippet; url := link |}.

(** [search.get_dict().get("organic_results", [])] for the search of [query]. *)
Definition organic_results (self : ResearchAgent) (query : value) : list (gmap str str) :=
  let search := get_dict query (serp_key self) (topn self) in
  default [] (search !! u "organic_results").

(** [self._search_web(query)] *)
Definition search_web (self : ResearchAgent) (query : value) : Out QueryBlock :=
  when (debug self)
    (print (u "[DEBUG] " ++ arrow ++ u " SerpAPI query: '" ++ fmt query ++ u "'"));;
  let data := slice_to (topn self) (organic_results self query) in
  let results := foldl (fun results r => results ++ [result_of r]) [] data in
  mret {| query := query; results := results |}.

Definition search_prompt (self : ResearchAgent) (question : str) : str :=
  sys_prompt self ++ nl ++ nl ++
  u "User question: " ++ question ++ nl ++ nl ++
  u "List up to 5 specific Google search queries (in JSON array format) " ++
  u "that will help answer the question. Example:" ++ nl ++
  u "[" ++ dquote ++ u "topic 1" ++ dquote ++ u ", " ++ dquote ++ u "topic 2" ++ dquote ++ u "]".

(** [search_queries_text]: the model's answer to the search prompt, stripped. *)
Definition search_queries_text (self : ResearchAgent) (question : str) : str :=
  strip (generate_content (model self) (gemini_key self) (search_prompt self question)).

(** [queries] after the [try] block. *)
Definition queries (self : ResearchAgent) (question : str) : list value :=
  let text := search_queries_text self question in
  match json_loads text with
  | Some (VList l) => l
  | Some _ => [VStr text]
  | None => [VStr text]
  end.

(** One round of the inner loop: a result's lines and its URL. *)
Definition add_result (acc : str * list str) (r : SearchResult) : str * list str :=
  let '(block_text, all_urls) := acc in
  (block_text ++ u "- " ++ title r ++ u ": " ++ snippet r ++ nl
     ++ u "(Source: " ++ url r ++ u ")" ++ nl,
   if truthy (Some (url r)) then all_urls ++ [url r] else all_urls).

(** One round of the outer loop: a block's text and the URLs of its results. *)
Definition add_block (acc : list str * list str) (search_block : QueryBlock)
    : list str * list str :=
  let '(combined_context_parts, all_urls) := acc in
  let q := query search_block in
  let block_text := u "### Search: " ++ fmt q ++ nl in
  let '(block_text, all_urls) :=
    foldl add_result (block_text, all_urls) (results search_block) in
  (combined_context_parts ++ [block_text], all_urls).

(** The text of one result, as the specification gives it: the line
    [- title: snippet] and the line [(Source: url)]. *)
Definition entry_text (r : SearchResult) : str :=
  u "- " ++ title r ++ u ": " ++ snippet r ++ nl ++ u "(Source: " ++ url r ++ u ")" ++ nl.

(** The section of one block, as the specification gives it: the heading and
    the text of each result in order. *)
Definition section_text (b : QueryBlock) : str :=
  u "### Search: " ++ fmt (query b) ++ nl ++ (results b ≫= entry_text).

(** The non-empty URLs of a block, in the order of its results. *)
Definition block_urls (b : QueryBlock) : list str :=
  filter (fun x => x <> []) (url <$> results b).

(** [combined_context_parts] and [all_urls] after the loop. *)
Definition combine (results : list QueryBlock) : list str * list str :=
  foldl add_block ([], []) results.

Definition combined_context (results : list QueryBlock) : str :=
  join nl (combine results).1.

Definition final_prompt (self : ResearchAgent) (question : str) (combined_context : str) : str :=
  sys_prompt self ++ nl ++ nl ++
  u "User question: " ++ question ++ nl ++ nl ++
  u "Here are the gathered search results (with URLs):" ++ nl ++ nl ++
  combined_context ++ nl ++ nl ++
  u "Now write a detailed, well-structured, and factually correct answer. " ++
  u "At the end, include a short 'Sources' section listing all relevant URLs in Markdown format.".

(** [self.run(question)], the workers scheduled by [sched]. *)
Definition run (self : ResearchAgent) (question : str) (sched : list nat)
    : Out ResearchResult :=
  when (debug self)
    (print (u "[DEBUG] " ++ arrow ++ u " Starting research on: " ++ question));;
  let queries := queries self question in
  when (debug self)
    (print (u "[DEBUG] " ++ arrow ++ u " Suggested queries: " ++ fmt (VList queries)));;
  results ← pool_map (search_web self) queries sched;
  let all_urls := (combine results).2 in
  let combined_context := combined_context results in
  when (debug self)
    (print (u "[DEBUG] " ++ arrow ++ u " Gemini generating final synthesis with citations..."));;
  let final_prompt := final_prompt self question combined_context in
  let answer := strip (generate_content (model self) (gemini_key self) final_prompt) in
  let steps := [] ++ [{| step_type := u "assistant_answer"; content := answer |}] in
  (* [list(set(all_urls))]: the elements of the set, in the order in which
     the set enumerates them. *)
  mret {| question := question; answer := answer;
          sources := elements (list_to_set all_urls : gset str); steps := steps |}.

(** The blocks of an invocation: what the pool hands back to [run]. *)
Definition blocks (self : ResearchAgent) (question : str) (sched : list nat)
    : list QueryBlock :=
  (pool_map (search_web self) (queries self question) sched).2.

(** ** The command line

    [_cli()] for the parsed arguments [cfg], in the environment [env] and
    with the files [files] (a path's text to its content); it returns the
    files it leaves. *)
Definition cli (env : gmap str str) (cfg : Namespace) (files : gmap str str)
    (sched : list nat) : exception + Out (gmap str str) :=
  match init env (cfg_model cfg) (cfg_topn cfg) (cfg_debug cfg) None None with
  | inl e => inl e
  | inr agent =>
    inr (result ← run agent (cfg_query cfg) sched;
         print (replicate 80 61);;
         print (answer result);;
         print (replicate 80 61);;
         print (nl ++ u "Sources:");;
         for_each (sources result) (fun url => print (u "- " ++ url));;
         match cfg_outfile cfg with
         | Some outfile =>
           let files := <[outfile := json_dumps result]> files in
           print (u "Saved detailed trace " ++ arrow ++ u " " ++ outfile);;
           mret files
         | None => mret files
         end)
  end.

(** ** The chat page

    One run of the script of search.py, from the session state [st], with
    what [st.chat_input] returns ([None] unless the user has just sent a
    text). *)
Definition script (env : gmap str str) (st : session_state)
    (user_input : option str) (sched : list nat) : script_run :=
  let messages0 := default [] (messages st) in
  match match agent st with
        | Some a => inr a
        | None => init env (u "gemini-2.5-flash") 10 false None None
        end with
  | inl e =>
    {| page := heading; stdout := [];
       state := {| messages := Some messages0; agent := None |};
       raised := Some e; rerun := false |}
  | inr a =>
    let history := show_message <$> messages0 in
    let input := st_chat_input (u "Type here...") in
    if truthy user_input then
      let user_input := default [] user_input in
      let messages1 :=
        messages0 ++ [{| role := u "user"; msg_content := user_input;
                         msg_sources := None |}] in
      let '(out, result) := run a user_input sched in
      let reply :=
        [st_spinner (u "Searching from websites") []; st_markdown (answer result)]
        ++ match sources result with
           | _ :: _ => show_sources (sources result)
           | [] => []
           end
        ++ (if debug a
            then [st_expander (u "Debug Trace")
                    [st_code (json_dumps result) (u "json")]]
            else []) in
      let messages2 :=
        messages1 ++ [{| role := u "assistant"; msg_content := answer result;
                         msg_sources := Some (sources result) |}] in
      {| page := heading ++ history
                 ++ [input; st_chat_message (u "user") [st_write user_input];
                     st_chat_message (u "assistant") reply];
         stdout := out;
         state := {| messages := Some messages2; agent := Some a |};
         raised := None; rerun := true |}
    else
      {| page := heading ++ history ++ [input]; stdout := [];
         state := {| messages := Some messages0; agent := Some a |};
         raised := None; rerun := false |}
  end.

(** One interaction: the script runs with the user's input, and once more
    without it when it asked to run again; the page is what the last run
    created. *)
Definition interact (env : gmap str str) (st : session_state)
    (user_input : option str) (sched : list nat) : script_run :=
  let r := script env st user_input sched in
  if rerun r then
    let r' := script env (state r) None [] in
    {| page := page r'; stdout := stdout r ++ stdout r'; state := state r';
       raised := raised r'; rerun := rerun r' |}
  else r.

(** The session state after a sequence of interactions. *)
Definition session (env : gmap str str) (inputs : list (option str * list nat))
    (st : session_state) : session_state :=
  foldl (fun st i => state (interact env st i.1 i.2)) st inputs.

(** The agent of the page is the one of the session or, when the session has
    none yet, the one the constructor builds from the environment. *)
Definition page_agent (env : gmap str str) (st : session_state) (a : ResearchAgent) : Prop :=
  agent st = Some a
  \/ (agent st = None
      /\ init env (u "gemini-2.5-flash") 10 false None None = inr a).

(** The two messages an accepted input adds. *)
Definition exchange (a : ResearchAgent) (i : option str * list nat) : list message :=
  if truthy i.1 then
    let result := (run a (default [] i.1) i.2).2 in
    [{| role := u "user"; msg_content := default [] i.1; msg_sources := None |};
     {| role := u "assistant"; msg_content := answer result;
        msg_sources := Some (sources result) |}]
  else [].

(** ** Facts about the output monad and the pool *)

Lemma out_ret_snd {A} (a : A) : (mret a : Out A).2 = a.
Proof using. done. Qed.

Lemma out_bind_snd {A B} (m : Out A) (k : A -> Out B) : (m ≫= k).2 = (k m.2).2.
Proof using. destruct m as [o a]. unfold mbind, Out_bind. simpl. by destruct (k a). Qed.

Lemma finish_slots {A B} (f : A -> Out B) st task :
  (finish f st task).2 = <[task.1 := Some (f task.2).2]> st.2.
Proof using. unfold finish. by rewrite !out_bind_snd. Qed.

Lemma elem_of_delete_other {A} (l : list A) j t t' :
  l !! j = Some t -> t' ∈ l -> t' = t \/ t' ∈ delete j l.
Proof using.
  intros Hj Hin. rewrite <- (take_drop_middle l j t Hj) in Hin.
  rewrite delete_take_drop.
  rewrite elem_of_app, elem_of_cons in Hin. rewrite elem_of_app. tauto.
Qed.

Lemma elem_of_delete_sub {A} (l : list A) j t' : t' ∈ delete j l -> t' ∈ l.
Proof using. intros H. eapply elem_of_sublist; [done | apply sublist_delete]. Qed.

(** Running a pending task keeps the pool's invariant: the slots are as many
    as the arguments, a pending task carries the argument of its position,
    and a position is pending or its slot holds its result. *)
Lemma finish_inv {A B} (f : A -> Out B) xs (pending : list (nat * A)) st j t :
  pending !! j = Some t ->
  length st.2 = length xs ->
  (forall t', t' ∈ pending -> xs !! t'.1 = Some t'.2) ->
  (forall i x, xs !! i = Some x -> (i, x) ∈ pending \/ st.2 !! i = Some (Some (f x).2)) ->
  length (finish f st t).2 = length xs
  /\ (forall t', t' ∈ delete j pending -> xs !! t'.1 = Some t'.2)
  /\ (forall i x, xs !! i = Some x ->
        (i, x) ∈ delete j pending \/ (finish f st t).2 !! i = Some (Some (f x).2)).
Proof using.
  intros Hj Hlen Hpend Hfill. rewrite finish_slots.
  assert (Ht : xs !! t.1 = Some t.2) by (apply Hpend; by eapply list_elem_of_lookup_2).
  split; [by rewrite length_insert|]. split.
  - intros t' Ht'. by apply Hpend, elem_of_delete_sub with j.
  - intros i x Hi. destruct (decide (i = t.1)) as [->|Hne].
    + right. assert (x = t.2) as -> by congruence.
      apply list_lookup_insert_eq. rewrite Hlen. by eapply lookup_lt_Some.
    + rewrite list_lookup_insert_ne by done.
      destruct (Hfill i x Hi) as [Hin|]; [|by right].
      destruct (elem_of_delete_other _ _ _ _ Hj Hin) as [<-|]; [done|by left].
Qed.

Lemma foldl_finish_filled {A B} (f : A -> Out B) xs (pending : list (nat * A)) :
  forall st,
  length st.2 = length xs ->
  (forall t', t' ∈ pending -> xs !! t'.1 = Some t'.2) ->
  (forall i x, xs !! i = Some x -> (i, x) ∈ pending \/ st.2 !! i = Some (Some (f x).2)) ->
  length (foldl (finish f) st pending).2 = length xs
  /\ (forall i x, xs !! i = Some x ->
        (foldl (finish f) st pending).2 !! i = Some (Some (f x).2)).
Proof using.
  induction pending as [|t pending IH]; intros st Hlen Hpend Hfill; simpl.
  - split; [done|]. intros i x Hi.
    destruct (Hfill i x Hi) as [Hin|]; [|done]. by apply elem_of_nil in Hin.
  - destruct (finish_inv f xs (t :: pending) st 0 t eq_refl Hlen Hpend Hfill)
      as (Hlen' & Hpend' & Hfill').
    by apply IH.
Qed.

Lemma drain_filled {A B} (f : A -> Out B) xs sched :
  forall (pending : list (nat * A)) st,
  length st.2 = length xs ->
  (forall t', t' ∈ pending -> xs !! t'.1 = Some t'.2) ->
  (forall i x, xs !! i = Some x -> (i, x) ∈ pending \/ st.2 !! i = Some (Some (f x).2)) ->
  length (drain f pending sched st).2 = length xs
  /\ (forall i x, xs !! i = Some x ->
        (drain f pending sched st).2 !! i = Some (Some (f x).2)).
Proof using.
  induction sched as [|k sched IH]; intros pending st Hlen Hpend Hfill; simpl.
  - by apply foldl_finish_filled.
  - destruct (pending !! (k mod length pending)%nat) as [t|] eqn:Hj.
    + destruct (finish_inv f xs pending st _ t Hj Hlen Hpend Hfill)
        as (Hlen' & Hpend' & Hfill').
      by apply IH.
    + split; [done|]. intros i x Hi.
      destruct (Hfill i x Hi) as [Hin|]; [|done].
      apply lookup_ge_None in Hj.
      destruct pending as [|t pending]; [by apply elem_of_nil in Hin|].
      pose proof (Nat.mod_upper_bound k (length (t :: pending))) as Hlt.
      simpl in *. lia.
Qed.

Lemma omap_id_Some {B} (l : list B) : omap id (Some <$> l) = l.
Proof using. induction l as [|y l IH]; csimpl; [done|]. by rewrite IH. Qed.

(** The pool hands back, in the order of the arguments, what each task
    returns, whatever the schedule. *)
Lemma pool_map_snd {A B} (f : A -> Out B) (xs : list A) sched :
  (pool_map f xs sched).2 = (fun x => (f x).2) <$> xs.
Proof using.
  unfold pool_map. rewrite out_bind_snd, out_ret_snd.
  destruct (drain_filled f xs sched (imap (fun i x => (i, x)) xs)
              (@mret Out _ _ (replicate (length xs) None))) as [Hlen Hfill].
  - simpl. by rewrite length_replicate.
  - intros [i x] Hin. apply list_elem_of_lookup_1 in Hin as [j Hj].
    rewrite list_lookup_imap in Hj.
    destruct (xs !! j) as [y|] eqn:Hy; simplify_eq/=. done.
  - intros i x Hi. left. apply list_elem_of_lookup_2 with i.
    by rewrite list_lookup_imap, Hi.
  - rewrite <- (omap_id_Some ((fun x => (f x).2) <$> xs)). f_equal.
    apply list_eq. intros i. rewrite !list_lookup_fmap.
    destruct (xs !! i) as [x|] eqn:Hi; simpl.
    + by apply Hfill.
    + apply lookup_ge_None_2. rewrite Hlen. by apply lookup_ge_None_1.
Qed.

(** ** Facts about the agent *)

Lemma foldl_snoc_fmap {A B} (g : A -> B) (l : list A) (acc : list B) :
  foldl (fun acc r => acc ++ [g r]) acc l = acc ++ (g <$> l).
Proof using.
  revert acc. induction l as [|x l IH]; intros acc; simpl.
  - by rewrite app_nil_r.
  - by rewrite IH, <- app_assoc.
Qed.

Lemma search_web_snd (self : ResearchAgent) (q : value) :
  (search_web self q).2
  = {| query := q;
       results := result_of <$> slice_to (topn self) (organic_results self q) |}.
Proof.
  unfold search_web. rewrite out_bind_snd, out_ret_snd.
  by rewrite foldl_snoc_fmap.
Qed.

Lemma blocks_eq self question sched :
  blocks self question sched
  = (fun q => {| query := q;
                 results := result_of <$> slice_to (topn self) (organic_results self q) |})
    <$> queries self question.
Proof.
  unfold blocks. rewrite pool_map_snd. apply list_fmap_ext.
  intros i q _. apply search_web_snd.
Qed.

Lemma truthy_Some (s : str) : truthy (Some s) = true <-> s <> [].
Proof using. by destruct s. Qed.

Lemma foldl_add_result rs : forall t us,
  foldl add_result (t, us) rs
  = (t ++ (rs ≫= entry_text), us ++ filter (fun x => x <> []) (url <$> rs)).
Proof.
  induction rs as [|r rs IH]; intros t us.
  - by rewrite !app_nil_r.
  - change (foldl add_result (t, us) (r :: rs))
      with (foldl add_result (add_result (t, us) r) rs).
    unfold add_result at 2. rewrite IH, fmap_cons, bind_cons. f_equal.
    + unfold entry_text. by rewrite <- !app_assoc.
    + destruct (url r) as [|c s] eqn:Hu; simpl.
      * by rewrite filter_cons_False by (intros H; by apply H).
      * by rewrite filter_cons_True, <- app_assoc by done.
Qed.

Lemma foldl_add_block bs : forall ps us,
  foldl add_block (ps, us) bs
  = (ps ++ (section_text <$> bs), us ++ (bs ≫= block_urls)).
Proof.
  induction bs as [|b bs IH]; intros ps us.
  - by rewrite !app_nil_r.
  - change (foldl add_block (ps, us) (b :: bs))
      with (foldl add_block (add_block (ps, us) b) bs).
    unfold add_block at 2. rewrite foldl_add_result, IH, fmap_cons, bind_cons.
    unfold section_text, block_urls. by rewrite <- !app_assoc.
Qed.

Lemma combine_eq bs : combine bs = (section_text <$> bs, bs ≫= block_urls).
Proof. unfold combine. by rewrite foldl_add_block. Qed.

Lemma run_snd self question sched :
  (run self question sched).2
  = let bs := blocks self question sched in
    let answer :=
      strip (generate_content (model self) (gemini_key self)
               (final_prompt self question (combined_context bs))) in
    {| question := question; answer := answer;
       sources := elements (list_to_set (combine bs).2 : gset str);
       steps := [{| step_type := u "assistant_answer"; content := answer |}] |}.
Proof. unfold run, blocks. by rewrite !out_bind_snd. Qed.

(** ** The properties of the specification *)

Lemma truthy_unset o : truthy o = false <-> unset o.
Proof using.
  unfold unset. destruct o as [[|c s]|]; simpl; split; auto; try discriminate.
  by intros [|].
Qed.

Lemma py_or_unset a b : unset (py_or a b) <-> unset a /\ unset b.
Proof using.
  unfold py_or. destruct (truthy a) eqn:Ha.
  - split; [|tauto]. intros H. apply truthy_unset in H. congruence.
  - apply truthy_unset in Ha. tauto.
Qed.

Lemma slice_to_nonneg {A} (k : Z) (l : list A) :
  (0 <= k)%Z -> slice_to k l = take (Z.to_nat (Z.min k (Z.of_nat (length l)))) l.
Proof using.
  intros Hk. unfold slice_to.
  destruct (Z.ltb_spec k 0) as [|_]; [lia|].
  destruct (Z.le_gt_cases k (Z.of_nat (length l))).
  - by rewrite Z.min_l.
  - rewrite Z.min_r, Nat2Z.id by lia. rewrite take_ge by lia. by rewrite firstn_all.
Qed.

Lemma slice_to_neg {A} (k : Z) (l : list A) :
  (k < 0)%Z -> slice_to k l = take (length l - Z.to_nat (- k)) l.
Proof using.
  intros Hk. unfold slice_to.
  destruct (Z.ltb_spec k 0) as [_|]; [|lia]. f_equal. lia.
Qed.

Lemma init_inl env m n d gk sk :
  unset (py_or gk (env !! u "GEMINI_API_KEY"))
  \/ unset (py_or sk (env !! u "SERPAPI_API_KEY")) ->
  init env m n d gk sk
  = inl (RuntimeError (u "GEMINI_API_KEY and SERPAPI_API_KEY must be set.")).
Proof using.
  rewrite <- !truthy_unset. unfold init.
  by intros [->| ->]; rewrite ?orb_true_r.
Qed.

Lemma init_inr env m n d gk sk :
  ~ unset (py_or gk (env !! u "GEMINI_API_KEY")) ->
  ~ unset (py_or sk (env !! u "SERPAPI_API_KEY")) ->
  init env m n d gk sk
  = inr {| model := m; topn := n; debug := d;
           gemini_key := py_or gk (env !! u "GEMINI_API_KEY");
           serp_key := py_or sk (env !! u "SERPAPI_API_KEY");
           sys_prompt := the_sys_prompt |}.
Proof using.
  rewrite <- !truthy_unset. unfold init.
  by intros ->%not_false_is_true ->%not_false_is_true.
Qed.

(** C1: the sources of the result of [run] are exactly the distinct non-empty
    URLs of the blocks of that invocation: the list has no duplicate, and a
    string is in it if and only if it is not empty and is the URL of a result
    of one of the blocks. *)
Theorem sources_exact self question sched :
  let res := (run self question sched).2 in
  NoDup (sources res)
  /\ forall x, x ∈ sources res <->
       x <> [] /\ exists b r, b ∈ blocks self question sched /\ r ∈ results b /\ url r = x.
Proof.
  intros res. subst res. rewrite run_snd. cbn [sources]. split.
  - apply NoDup_elements.
  - intros x. rewrite elem_of_elements, elem_of_list_to_set, combine_eq. cbn [snd].
    rewrite list_elem_of_bind. unfold block_urls. split.
    + intros (b & Hx & Hb). apply list_elem_of_filter in Hx as [Hne Hx].
      apply list_elem_of_fmap in Hx as (r & -> & Hr). eauto 6.
    + intros (Hne & b & r & Hb & Hr & <-). exists b. split; [|done].
      apply list_elem_of_filter. split; [done|].
      apply list_elem_of_fmap. eauto.
Qed.

(** C2: construction raises if and only if one of the two credentials is
    unset (absent or empty) both as a parameter and in the environment;
    otherwise it returns the agent, whose attributes are the parameters and
    the resolved credentials, both set.  Construction is one evaluation:
    nothing is tried again. *)
Theorem credential_gating env m n d gk sk :
  let g := env !! u "GEMINI_API_KEY" in
  let s := env !! u "SERPAPI_API_KEY" in
  ((exists e, init env m n d gk sk = inl e) <->
     (unset gk /\ unset g) \/ (unset sk /\ unset s))
  /\ ((exists self, init env m n d gk sk = inr self) <->
        ~ ((unset gk /\ unset g) \/ (unset sk /\ unset s)))
  /\ (forall self, init env m n d gk sk = inr self ->
        model self = m /\ topn self = n /\ debug self = d
        /\ gemini_key self = py_or gk g /\ serp_key self = py_or sk s
        /\ ~ unset (gemini_key self) /\ ~ unset (serp_key self)).
Proof using.
  clear. intros g s. rewrite <- !py_or_unset.
  destruct (truthy (py_or gk g)) eqn:Hg; [destruct (truthy (py_or sk s)) eqn:Hs|].
  - apply not_false_iff_true in Hg, Hs. rewrite truthy_unset in Hg, Hs.
    rewrite init_inr by done. split; [|split].
    + split; [by intros [e [=]] | tauto].
    + split; [tauto | eauto].
    + by intros self [= <-].
  - apply truthy_unset in Hs. rewrite init_inl by tauto. split; [|split].
    + split; [tauto | eauto].
    + split; [by intros [self [=]] | tauto].
    + by intros self [=].
  - apply truthy_unset in Hg. rewrite init_inl by tauto. split; [|split].
    + split; [tauto | eauto].
    + split; [by intros [self [=]] | tauto].
    + by intros self [=].
Qed.

(** C5: when [topn] is not negative, the block of a query holds the first
    [min(topn, n)] of the [n] records the provider returned, in the provider's
    order, each as a search result; with [topn = 5] and 20 records these are
    exactly the first 5. *)
Theorem search_web_truncates (self : ResearchAgent) (q : value) :
  (0 <= topn self)%Z ->
  let data := organic_results self q in
  let k := Z.to_nat (Z.min (topn self) (Z.of_nat (length data))) in
  let block := (search_web self q).2 in
  query block = q
  /\ results block = result_of <$> take k data
  /\ length (results block) = k
  /\ (topn self = 5%Z -> length data = 20%nat ->
      results block = result_of <$> take 5 data /\ length (results block) = 5%nat).
Proof.
  intros Hn data k block. subst block. rewrite search_web_snd. cbn [query results].
  fold data. rewrite slice_to_nonneg by done. fold k.
  assert (Hk : length (result_of <$> take k data) = k).
  { rewrite length_fmap, length_take. subst k. lia. }
  split; [done|]. split; [done|]. split; [done|].
  intros H5 H20. rewrite Hk. subst k. by rewrite H5, H20.
Qed.

(** C6: the pool returns one block per query, and the queries of the blocks
    are the input queries in the same order, whatever the order in which the
    workers run the searches: the blocks are those of the searches done one
    after the other. *)
Theorem retrieval_order self (qs : list value) sched :
  let bs := (pool_map (search_web self) qs sched).2 in
  length bs = length qs
  /\ query <$> bs = qs
  /\ bs = (fun q => (search_web self q).2) <$> qs
  /\ forall sched', (pool_map (search_web self) qs sched').2 = bs.
Proof.
  intros bs. subst bs. rewrite pool_map_snd.
  split; [by rewrite length_fmap|]. split; [|split; [done|]].
  - rewrite <- list_fmap_compose. rewrite <- (list_fmap_id qs) at 2.
    apply list_fmap_ext. intros i q _. simpl. by rewrite search_web_snd.
  - intros sched'. by rewrite pool_map_snd.
Qed.

(** C7: every record the provider returned and the slice kept becomes the
    result at the same position of the block, and each field of the result
    is the record's field when it is there and otherwise its placeholder:
    [(untitled)] for the title, [(no snippet)] for the snippet, the empty
    string for the link. *)
Theorem result_defaults (self : ResearchAgent) (q : value) (i : nat) (r : gmap str str) :
  slice_to (topn self) (organic_results self q) !! i = Some r ->
  exists res, results (search_web self q).2 !! i = Some res
    /\ (forall v, r !! u "title" = Some v -> title res = v)
    /\ (r !! u "title" = None -> title res = u "(untitled)")
    /\ (forall v, r !! u "snippet" = Some v -> snippet res = v)
    /\ (r !! u "snippet" = None -> snippet res = u "(no snippet)")
    /\ (forall v, r !! u "link" = Some v -> url res = v)
    /\ (r !! u "link" = None -> url res = []).
Proof.
  intros Hr. exists (result_of r). rewrite search_web_snd. cbn [results].
  rewrite list_lookup_fmap, Hr. split; [done|].
  unfold result_of. cbn [title snippet url].
  repeat split; try (intros v Hv); try (intros Hv); by rewrite Hv.
Qed.

(** C4, as the code has it: the plan is the decoded array itself when the
    stripped answer of the model decodes to an array, and the one-entry list
    holding the stripped answer otherwise.  Nothing bounds its length or
    checks its entries: it has between 1 and 5 entries, all strings, when the
    model's array does. *)
Theorem plan_is_decoded_array (self : ResearchAgent) (question : str) :
  let text := search_queries_text self question in
  (forall l, json_loads text = Some (VList l) -> queries self question = l)
  /\ ((forall l, json_loads text <> Some (VList l)) ->
      queries self question = [VStr text])
  /\ ((forall l, json_loads text = Some (VList l) ->
         (1 <= length l <= 5)%nat /\ Forall (fun v => is_str v = true) l) ->
      (1 <= length (queries self question) <= 5)%nat
      /\ Forall (fun v => is_str v = true) (queries self question)).
Proof.
  intros text. unfold queries. fold text.
  destruct (json_loads text) as [v|] eqn:Hv.
  - destruct v; try (split; [by intros l [=]|]; split; [done|];
      intros _; split; [simpl; lia | by repeat constructor]).
    split; [by intros l' [= ->]|]. split; [intros H; by destruct (H l)|].
    intros H. by apply H.
  - split; [by intros l [=]|]. split; [done|].
    intros _. split; [simpl; lia | by repeat constructor].
Qed.

(** C9: two agents built from the same parameters and environment, apart
    from the debug flag, return the same result for the same question and
    the same answers of the services, whatever the two schedules: the trace
    changes the standard output only. *)
Theorem debug_does_not_alter_result env m n gk sk (d1 d2 : bool)
    (self1 self2 : ResearchAgent) (question : str) (sched1 sched2 : list nat) :
  init env m n d1 gk sk = inr self1 ->
  init env m n d2 gk sk = inr self2 ->
  (run self1 question sched1).2 = (run self2 question sched2).2.
Proof.
  unfold init. intros H1 H2.
  destruct (negb _ || negb _); [done|].
  injection H1 as <-. injection H2 as <-.
  by rewrite !run_snd, !blocks_eq.
Qed.

(** C10: construction stores any integer [topn] as it is, also zero and the
    negative ones; with [topn = 0] the results of every block are empty, and
    with a negative [topn] they are the provider's records without the last
    [-topn] of them. *)
Theorem topn_unvalidated env m (n : Z) d gk sk :
  ~ (unset gk /\ unset (env !! u "GEMINI_API_KEY")) ->
  ~ (unset sk /\ unset (env !! u "SERPAPI_API_KEY")) ->
  exists self, init env m n d gk sk = inr self /\ topn self = n
    /\ forall q : value,
         let data := organic_results self q in
         let block := (search_web self q).2 in
         (n = 0%Z -> results block = [])
         /\ ((n < 0)%Z ->
             results block = result_of <$> take (length data - Z.to_nat (- n)) data
             /\ length (results block) = (length data - Z.to_nat (- n))%nat).
Proof.
  intros Hg Hs. rewrite <- py_or_unset in Hg, Hs.
  eexists. split; [by apply init_inr|]. split; [done|].
  intros q data block. subst block.
  rewrite search_web_snd. cbn [results topn]. fold data. split.
  - intros ->. done.
  - intros Hneg. rewrite slice_to_neg by done. split; [done|].
    rewrite length_fmap, length_take. lia.
Qed.

(** ** Further facts: the standard output *)

Lemma out_bind_fst {A B} (m : Out A) (k : A -> Out B) :
  (m ≫= k).1 = m.1 ++ (k m.2).1.
Proof using. destruct m as [o a]. unfold mbind, Out_bind. simpl. by destruct (k a). Qed.

Lemma finish_out {A B} (f : A -> Out B) st task :
  (finish f st task).1 = st.1 ++ (f task.2).1.
Proof using.
  unfold finish. rewrite !out_bind_fst. simpl. by rewrite app_nil_r.
Qed.

Lemma foldl_finish_out {A B} (f : A -> Out B) (pending : list (nat * A)) : forall st,
  (foldl (finish f) st pending).1 = st.1 ++ (pending ≫= fun t => (f t.2).1).
Proof using.
  induction pending as [|t pending IH]; intros st.
  - by rewrite app_nil_r.
  - change (foldl (finish f) st (t :: pending))
      with (foldl (finish f) (finish f st t) pending).
    by rewrite IH, finish_out, bind_cons, <- app_assoc.
Qed.

(** Whatever the schedule, the pool prints the lines of its tasks, each
    task's lines together, the tasks in the order the schedule runs them. *)
Lemma drain_out {A B} (f : A -> Out B) sched : forall (pending : list (nat * A)) st,
  (drain f pending sched st).1 ≡ₚ st.1 ++ (pending ≫= fun t => (f t.2).1).
Proof using.
  induction sched as [|k sched IH]; intros pending st; simpl.
  - by rewrite foldl_finish_out.
  - destruct (pending !! (k mod length pending)%nat) as [t|] eqn:Hj.
    + rewrite IH, finish_out, <- app_assoc. apply Permutation_app_head.
      pose proof (delete_Permutation pending _ t Hj) as Hp.
      change ((f t.2).1 ++ (delete (k mod length pending)%nat pending
                              ≫= fun t => (f t.2).1))
        with ((t :: delete (k mod length pending)%nat pending)
                ≫= fun t => (f t.2).1).
      by rewrite <- Hp.
    + apply lookup_ge_None in Hj. destruct pending as [|t pending].
      * by rewrite app_nil_r.
      * pose proof (Nat.mod_upper_bound k (length (t :: pending))) as Hlt.
        simpl in *. lia.
Qed.

Lemma imap_pair_bind {A C} (g : A -> list C) (xs : list A) : forall h : nat -> nat,
  (imap (fun i x => (h i, x)) xs ≫= fun t => g t.2) = xs ≫= g.
Proof using.
  induction xs as [|x xs IH]; intros h; [done|].
  rewrite imap_cons, !bind_cons. simpl. f_equal. apply (IH (h ∘ S)).
Qed.

Lemma pool_map_out {A B} (f : A -> Out B) (xs : list A) sched :
  (pool_map f xs sched).1 ≡ₚ xs ≫= fun x => (f x).1.
Proof using.
  unfold pool_map. rewrite out_bind_fst. simpl. rewrite app_nil_r.
  rewrite drain_out. simpl.
  pose proof (imap_pair_bind (fun x => (f x).1) xs id) as H. simpl in H.
  by rewrite H.
Qed.

Lemma search_web_out (self : ResearchAgent) (q : value) :
  (search_web self q).1
  = if debug self
    then [u "[DEBUG] " ++ arrow ++ u " SerpAPI query: '" ++ fmt q ++ u "'"]
    else [].
Proof. unfold search_web. rewrite out_bind_fst. simpl. rewrite app_nil_r. by destruct (debug self). Qed.

Lemma run_out (self : ResearchAgent) (question : str) (sched : list nat) :
  (run self question sched).1
  = (if debug self
     then [u "[DEBUG] " ++ arrow ++ u " Starting research on: " ++ question;
           u "[DEBUG] " ++ arrow ++ u " Suggested queries: "
             ++ fmt (VList (queries self question))]
     else [])
    ++ (pool_map (search_web self) (queries self question) sched).1
    ++ (if debug self
        then [u "[DEBUG] " ++ arrow ++ u " Gemini generating final synthesis with citations..."]
        else []).
Proof.
  unfold run. rewrite !out_bind_fst. simpl. rewrite app_nil_r.
  destruct (debug self); simpl; by rewrite ?app_nil_r.
Qed.

(** ** Further facts: [strip] *)

Lemma lstrip_spec (s : str) :
  exists pre, s = pre ++ lstrip s /\ Forall (fun c => isspace c = true) pre.
Proof using.
  induction s as [|c s (pre & Hs & Hpre)]; [by exists []|].
  simpl. destruct (isspace c) eqn:Hc.
  - exists (c :: pre). split; [by rewrite <- app_comm_cons, <- Hs | by constructor].
  - by exists [].
Qed.

Lemma lstrip_head (s : str) c : head (lstrip s) = Some c -> isspace c = false.
Proof using.
  induction s as [|d s IH]; [done|]. simpl.
  destruct (isspace d) eqn:Hd; [done|]. by intros [= <-].
Qed.

Lemma rstrip_spec (s : str) :
  exists post, s = rstrip s ++ post /\ Forall (fun c => isspace c = true) post.
Proof using.
  destruct (lstrip_spec (reverse s)) as (pre & Hs & Hpre).
  exists (reverse pre). split; [|by apply Forall_reverse].
  unfold rstrip. rewrite <- reverse_app, <- Hs. by rewrite reverse_involutive.
Qed.

Lemma rstrip_last (s : str) c : last (rstrip s) = Some c -> isspace c = false.
Proof using. unfold rstrip. rewrite last_reverse. apply lstrip_head. Qed.

Lemma rstrip_head (s : str) c :
  head s = Some c -> isspace c = false -> head (rstrip s) = Some c.
Proof using.
  intros Hh Hc. destruct (rstrip_spec s) as (post & Hs & Hpost).
  destruct (rstrip s) as [|d t]; simpl in *; subst s.
  - destruct post as [|d post]; [done|]. simplify_eq/=.
    apply Forall_cons in Hpost as [? _]. congruence.
  - done.
Qed.

(** [strip] takes white space off both ends, all of it and nothing else. *)
Lemma strip_spec (s : str) :
  exists pre post,
    s = pre ++ strip s ++ post
    /\ Forall (fun c => isspace c = true) pre
    /\ Forall (fun c => isspace c = true) post
    /\ (forall c, head (strip s) = Some c -> isspace c = false)
    /\ (forall c, last (strip s) = Some c -> isspace c = false).
Proof using.
  destruct (lstrip_spec s) as (pre & Hs & Hpre).
  destruct (rstrip_spec (lstrip s)) as (post & Hl & Hpost).
  exists pre, post. unfold strip. split; [by rewrite <- Hl|].
  split; [done|]. split; [done|]. split; [|apply rstrip_last].
  intros c Hc. destruct (lstrip s) as [|d t] eqn:Hd.
  - by vm_compute in Hc.
  - pose proof (lstrip_head s d) as Hsp. rewrite Hd in Hsp.
    specialize (Hsp eq_refl).
    rewrite (rstrip_head (d :: t) d eq_refl Hsp) in Hc. congruence.
Qed.

Lemma length_bind_le {A C} (g : A -> list C) (k : nat) (l : list A) :
  Forall (fun x => (length (g x) <= k)%nat) l ->
  (length (l ≫= g) <= length l * k)%nat.
Proof using.
  induction 1 as [|x l Hx _ IH]; [done|].
  rewrite bind_cons, length_app. simpl. lia.
Qed.

(** ** Further properties of [run] *)

(** X1: an agent whose debug flag is off prints nothing: neither [run] nor
    the searches of its workers write a line, whatever the schedule. *)
Theorem run_quiet_without_debug (self : ResearchAgent) (question : str)
    (sched : list nat) :
  debug self = false ->
  (run self question sched).1 = []
  /\ forall q : value, (search_web self q).1 = [].
Proof.
  intros Hd.
  assert (Hq : forall q : value, (search_web self q).1 = []).
  { intros q. by rewrite search_web_out, Hd. }
  split; [|done]. rewrite run_out, Hd. simpl. rewrite app_nil_r.
  apply Permutation_nil_r. rewrite pool_map_out.
  induction (queries self question) as [|q qs IH]; [done|].
  by rewrite bind_cons, Hq.
Qed.


(** X3: the result carries the question as it was asked and one step, of
    type [assistant_answer], whose content is the answer; the answer is the
    model's text for the final prompt without the white space at its two
    ends: it neither starts nor ends with a white-space character, and what
    was taken off is white space only. *)
Theorem answer_is_stripped (self : ResearchAgent) (asked : str) (sched : list nat) :
  let res := (run self asked sched).2 in
  let raw := generate_content (model self) (gemini_key self)
               (final_prompt self asked
                  (combined_context (blocks self asked sched))) in
  question res = asked
  /\ steps res = [{| step_type := u "assistant_answer"; content := answer res |}]
  /\ exists pre post,
       raw = pre ++ answer res ++ post
       /\ Forall (fun c => isspace c = true) pre
       /\ Forall (fun c => isspace c = true) post
       /\ (forall c, head (answer res) = Some c -> isspace c = false)
       /\ (forall c, last (answer res) = Some c -> isspace c = false).
Proof.
  intros res raw. subst res. rewrite run_snd. cbn [question steps answer].
  split; [done|]. split; [done|]. apply strip_spec.
Qed.

(** X4: when [topn] is not negative, the result lists at most [topn] sources
    per planned query. *)
Theorem sources_bounded (self : ResearchAgent) (question : str) (sched : list nat) :
  (0 <= topn self)%Z ->
  (length (sources (run self question sched).2)
   <= length (queries self question) * Z.to_nat (topn self))%nat.
Proof.
  intros Hn. rewrite run_snd. cbn [sources]. rewrite combine_eq. cbn [snd].
  trans (length (blocks self question sched ≫= block_urls)).
  { apply submseteq_length, NoDup_submseteq; [apply NoDup_elements|].
    intros x. by rewrite elem_of_elements, elem_of_list_to_set. }
  rewrite blocks_eq.
  etrans; [apply (length_bind_le _ (Z.to_nat (topn self)))|by rewrite length_fmap].
  apply Forall_fmap, Forall_forall. intros q _. unfold block_urls. simpl.
  etrans; [apply length_filter|].
  rewrite !length_fmap, slice_to_nonneg, length_take by done. lia.
Qed.

(** X5: when the plan is empty (the model answered with an empty array) no
    search is made: there is no block, the result has no source, and the
    answer is still asked of the model, on a prompt with an empty context. *)
Theorem empty_plan (self : ResearchAgent) (question : str) (sched : list nat) :
  queries self question = [] ->
  let res := (run self question sched).2 in
  blocks self question sched = []
  /\ sources res = []
  /\ answer res
     = strip (generate_content (model self) (gemini_key self)
                (final_prompt self question []))
  /\ (pool_map (search_web self) (queries self question) sched).1 = [].
Proof.
  intros Hq res. subst res.
  assert (Hb : blocks self question sched = []) by (by rewrite blocks_eq, Hq).
  rewrite run_snd, Hb. cbn [sources answer]. split; [done|].
  split; [by vm_compute|]. split; [done|].
  apply Permutation_nil_r. by rewrite pool_map_out, Hq.
Qed.



(** ** Further facts: the encoder and the decoder *)

(* Arithmetic with division by a constant; the services play no part in it. *)
Ltac divmod_lia :=
  try clear generate_content get_dict json_loads str_of;
  zify; Z.to_euclidean_division_equations; lia.

Ltac key_ok := apply (bool_decide_unpack _); vm_compute; reflexivity.

Ltac decide_cmp :=
  repeat match goal with
  | |- context [?a =? ?b] =>
      first [ replace (a =? b) with true by (symmetry; apply N.eqb_eq; divmod_lia)
            | replace (a =? b) with false by (symmetry; apply N.eqb_neq; divmod_lia) ]
  | |- context [?a <=? ?b] =>
      first [ replace (a <=? b) with true by (symmetry; apply N.leb_le; divmod_lia)
            | replace (a <=? b) with false by (symmetry; apply N.leb_gt; divmod_lia) ]
  | |- context [?a <? ?b] =>
      first [ replace (a <? b) with true by (symmetry; apply N.ltb_lt; divmod_lia)
            | replace (a <? b) with false by (symmetry; apply N.ltb_ge; divmod_lia) ]
  end.

Lemma hex_hex_digit d : d < 16 -> JSON.hex (hex_digit d) = Some d.
Proof using.
  intros Hd. unfold hex_digit, JSON.hex, JSON.is_digit.
  destruct (N.ltb_spec d 10); decide_cmp; simpl; f_equal; lia.
Qed.

Lemma hex4_u_digits n :
  n < 65536 ->
  JSON.hex4 (hex_digit (n / 4096)) (hex_digit (n / 256 mod 16))
    (hex_digit (n / 16 mod 16)) (hex_digit (n mod 16)) = Some n.
Proof using.
  intros Hn. unfold JSON.hex4.
  rewrite !hex_hex_digit by divmod_lia. f_equal. divmod_lia.
Qed.

(** Unfolding [scanstring] on the forms the encoder writes. *)
Lemma scanstring_plain c r :
  c <> 34 -> c <> 92 -> 32 <= c ->
  JSON.scanstring (c :: r) = '(t, r') ← JSON.scanstring r; Some (c :: t, r').
Proof using. intros. cbn [JSON.scanstring]. by decide_cmp. Qed.

Lemma scanstring_short e x r :
  JSON.backslash e = Some x -> e <> 117 ->
  JSON.scanstring (92 :: e :: r) = '(t, r') ← JSON.scanstring r; Some (x :: t, r').
Proof using.
  intros Hx He. cbn [JSON.scanstring]. 
  change (92 =? 34) with false. change (92 =? 92) with true. cbv iota.
  decide_cmp. by rewrite Hx.
Qed.

Lemma scanstring_unit n r :
  n < 65536 -> JSON.high_surrogate n = false ->
  JSON.scanstring (u_escape n ++ r)
  = '(t, r') ← JSON.scanstring r; Some (n :: t, r').
Proof using.
  intros Hn Hs. unfold u_escape. cbn [app JSON.scanstring].
  change (92 =? 34) with false. change (92 =? 92) with true.
  change (117 =? 117) with true. cbv iota.
  by rewrite hex4_u_digits, Hs.
Qed.

Lemma scanstring_pair hi lo r :
  hi < 65536 -> lo < 65536 ->
  JSON.high_surrogate hi = true -> JSON.low_surrogate lo = true ->
  JSON.scanstring (u_escape hi ++ u_escape lo ++ r)
  = '(t, r') ← JSON.scanstring r; Some (JSON.join_surrogates hi lo :: t, r').
Proof using.
  intros Hhi Hlo Hh Hl. unfold u_escape. cbn [app JSON.scanstring].
  change (92 =? 34) with false. change (92 =? 92) with true.
  change (117 =? 117) with true. cbv iota.
  rewrite hex4_u_digits, Hh by done. simpl andb. cbv iota.
  by rewrite hex4_u_digits, Hl.
Qed.

Lemma scalar_spec c : scalar c = true <-> c < 1114112 /\ (c < 55296 \/ 57343 < c).
Proof using.
  unfold scalar. rewrite andb_true_iff, negb_true_iff, andb_false_iff.
  rewrite N.ltb_lt, !N.leb_gt. lia.
Qed.

Lemma scanstring_escape_char c r :
  scalar c = true ->
  JSON.scanstring (escape_char c ++ r)
  = '(t, r') ← JSON.scanstring r; Some (c :: t, r').
Proof using.
  intros Hc%scalar_spec. unfold escape_char.
  destruct (N.eqb_spec c 34) as [->|]; [by apply scanstring_short|].
  destruct (N.eqb_spec c 92) as [->|]; [by apply scanstring_short|].
  destruct (N.eqb_spec c 10) as [->|]; [by apply scanstring_short|].
  destruct (N.eqb_spec c 13) as [->|]; [by apply scanstring_short|].
  destruct (N.eqb_spec c 9) as [->|]; [by apply scanstring_short|].
  destruct (N.eqb_spec c 12) as [->|]; [by apply scanstring_short|].
  destruct (N.eqb_spec c 8) as [->|]; [by apply scanstring_short|].
  destruct (N.leb_spec 32 c); simpl andb;
    [destruct (N.leb_spec c 126); simpl andb|].
  - by apply scanstring_plain.
  - destruct (N.ltb_spec c 65536).
    + apply scanstring_unit; [done|]. unfold JSON.high_surrogate. decide_cmp. 
      destruct (55296 <=? c) eqn:E; [|done]. apply N.leb_le in E. simpl. apply N.leb_gt. lia.
    + rewrite <- app_assoc, scanstring_pair.
      * destruct (JSON.scanstring r) as [[t r']|]; [simpl|done].
        do 3 f_equal. unfold JSON.join_surrogates. divmod_lia.
      * divmod_lia.
      * divmod_lia.
      * unfold JSON.high_surrogate. by decide_cmp.
      * unfold JSON.low_surrogate. by decide_cmp.
  - cbv iota. replace (c <? 65536) with true by (symmetry; apply N.ltb_lt; lia).
    apply scanstring_unit; [lia|]. unfold JSON.high_surrogate. by decide_cmp.
Qed.

Lemma scanstring_escape (s : str) r :
  Forall (fun c => scalar c = true) s ->
  JSON.scanstring ((s ≫= escape_char) ++ 34 :: r) = Some (s, r).
Proof using.
  induction 1 as [|c s Hc _ IH]; [done|].
  by rewrite bind_cons, <- app_assoc, scanstring_escape_char, IH.
Qed.

(** A string token. *)
Lemma scan_dumps_str fuel (s : str) r :
  Forall (fun c => scalar c = true) s ->
  JSON.scan_once (S fuel) (dumps_str s ++ r) = Some (VStr s, r).
Proof using.
  intros Hs. unfold dumps_str, dquote. rewrite <- !app_assoc.
  cbn [app JSON.scan_once]. change (34 =? 34) with true. cbv iota.
  by rewrite scanstring_escape.
Qed.

Lemma skip_ws_spaces n (r : str) : JSON.skip_ws (replicate n 32 ++ r) = JSON.skip_ws r.
Proof using. induction n as [|n IH]; [done|]. simpl. by change (JSON.is_ws 32) with true. Qed.

Lemma skip_ws_stop c (r : str) : JSON.is_ws c = false -> JSON.skip_ws (c :: r) = c :: r.
Proof using. intros H. simpl. by rewrite H. Qed.

Lemma skip_ws_indent level (r : str) :
  JSON.skip_ws (newline_indent level ++ r) = JSON.skip_ws r.
Proof using.
  unfold newline_indent, nl. rewrite <- app_assoc. simpl.
  change (JSON.is_ws 10) with true. cbv iota. apply skip_ws_spaces.
Qed.


Lemma token_skip_ws scan e v r : token scan e v -> JSON.skip_ws (e ++ r) = e ++ r.
Proof using. intros (_ & c & t & -> & Hc & _). by apply skip_ws_stop. Qed.

Lemma join_cons_bind (sep e : str) (es : list str) :
  join sep (e :: es) = e ++ (es ≫= fun e' => sep ++ e').
Proof using.
  revert e. induction es as [|e' es IH]; intros e.
  - by rewrite app_nil_r.
  - change (join sep (e :: e' :: es)) with (e ++ sep ++ join sep (e' :: es)).
    by rewrite IH, bind_cons, <- app_assoc.
Qed.

Lemma length_bind_ge {A} (g : A -> str) (l : list A) :
  (forall x, g x <> []) -> (length l <= length (l ≫= g))%nat.
Proof using.
  intros Hg. induction l as [|x l IH]; [done|].
  rewrite bind_cons, length_app. specialize (Hg x).
  destruct (g x); [done|]. simpl. lia.
Qed.

Lemma bind_nil_l {A C} (g : A -> list C) : ([] ≫= g) = [].
Proof using. done. Qed.

Lemma array_tail_S scan fuel s :
  JSON.array_tail scan (S fuel) s
  = match JSON.skip_ws s with
    | c :: s' =>
      if c =? 93 then Some ([], s')
      else if c =? 44 then
        '(v, r) ← scan (JSON.skip_ws s');
        '(vs, r') ← JSON.array_tail scan fuel r;
        Some (v :: vs, r')
      else None
    | [] => None
    end.
Proof using. done. Qed.

Lemma skip_ws_blank (w r : str) :
  Forall (fun c => JSON.is_ws c = true) w -> JSON.skip_ws (w ++ r) = JSON.skip_ws r.
Proof using. induction 1 as [|c w Hc _ IH]; [done|]. simpl. by rewrite Hc. Qed.

Lemma newline_indent_blank level :
  Forall (fun c => JSON.is_ws c = true) (newline_indent level).
Proof using.
  unfold newline_indent, nl. apply Forall_cons. split; [done|].
  apply Forall_forall. by intros c ->%elem_of_replicate_inv.
Qed.

(** The items after the first, each behind a comma and white space, and the
    closing bracket behind white space. *)
Lemma array_tail_items scan (w1 w2 : str) (items : list (str * value)) r : forall fuel,
  Forall (fun c => JSON.is_ws c = true) w1 ->
  Forall (fun c => JSON.is_ws c = true) w2 ->
  Forall (fun it => token scan it.1 it.2) items ->
  (length items < fuel)%nat ->
  JSON.array_tail scan fuel
    ((items ≫= fun it => (u "," ++ w1) ++ it.1) ++ w2 ++ u "]" ++ r)
  = Some (items.*2, r).
Proof using.
  induction items as [|[e v] items IH]; intros fuel Hw1 Hw2 Hit Hf;
    (destruct fuel as [|fuel]; [simpl in Hf; lia|]); rewrite array_tail_S.
  - rewrite bind_nil_l, app_nil_l, skip_ws_blank by done.
    change (u "]" ++ r) with (93 :: r).
    rewrite skip_ws_stop by done. by change (93 =? 93) with true.
  - apply Forall_cons in Hit as [He Hit]. cbn [fst snd] in He.
    rewrite bind_cons. cbn [fst]. change (u ",") with [44].
    rewrite <- !app_assoc. cbn [app].
    rewrite skip_ws_stop by done.
    change (44 =? 93) with false. change (44 =? 44) with true. cbv iota.
    rewrite skip_ws_blank, (token_skip_ws _ _ _ _ He), (proj1 He) by done.
    cbn [mbind option_bind].
    rewrite IH by (done || simpl in Hf; lia). done.
Qed.

Lemma scan_once_S fuel c s' :
  JSON.scan_once (S fuel) (c :: s')
  = if c =? 34 then '(t, r) ← JSON.scanstring s'; Some (VStr t, r)
    else if c =? 123 then
      match JSON.skip_ws s' with
      | d :: r =>
        if d =? 125 then Some (VDict [], r)
        else
          '(kv, r') ← JSON.pair (JSON.scan_once fuel) (d :: r);
          '(kvs, r'') ← JSON.object_tail (JSON.scan_once fuel) (length (c :: s')) r';
          Some (VDict (kv :: kvs), r'')
      | [] => None
      end
    else if c =? 91 then
      match JSON.skip_ws s' with
      | d :: r =>
        if d =? 93 then Some (VList [], r)
        else
          '(v, r') ← JSON.scan_once fuel (d :: r);
          '(vs, r'') ← JSON.array_tail (JSON.scan_once fuel) (length (c :: s')) r';
          Some (VList (v :: vs), r'')
      | [] => None
      end
    else JSON.scan_once (S fuel) (c :: s').
Proof using.
  destruct (c =? 34) eqn:H34; [by cbn [JSON.scan_once]; rewrite H34|].
  destruct (c =? 123) eqn:H123; [by cbn [JSON.scan_once]; rewrite H34, H123|].
  destruct (c =? 91) eqn:H91; [by cbn [JSON.scan_once]; rewrite H34, H123, H91|].
  done.
Qed.

Lemma bind_fmap_l {A B C} (h : A -> B) (g : B -> list C) (l : list A) :
  ((h <$> l) ≫= g) = l ≫= (g ∘ h).
Proof using. induction l as [|x l IH]; [done|]. by rewrite fmap_cons, !bind_cons, IH. Qed.

(** A list of one token and more, with white space where the grammar
    allows it. *)
Lemma scan_list_text fuel (w0 w1 w2 e : str) v (items : list (str * value)) r :
  Forall (fun c => JSON.is_ws c = true) w0 ->
  Forall (fun c => JSON.is_ws c = true) w1 ->
  Forall (fun c => JSON.is_ws c = true) w2 ->
  token (JSON.scan_once fuel) e v ->
  Forall (fun it => token (JSON.scan_once fuel) it.1 it.2) items ->
  JSON.scan_once (S fuel)
    (u "[" ++ w0 ++ e ++ (items ≫= fun it => (u "," ++ w1) ++ it.1)
       ++ w2 ++ u "]" ++ r)
  = Some (VList (v :: items.*2), r).
Proof using.
  intros Hw0 Hw1 Hw2 He Hit. change (u "[") with [91]. cbn [app].
  rewrite scan_once_S.
  change (91 =? 34) with false. change (91 =? 123) with false.
  change (91 =? 91) with true. cbv iota.
  rewrite skip_ws_blank, (token_skip_ws _ _ _ _ He) by done.
  destruct He as (Hscan & c & t & -> & Hws & H93 & H125).
  cbn [app]. replace (c =? 93) with false by (symmetry; by apply N.eqb_neq).
  change (c :: t ++ ?x) with ((c :: t) ++ x). rewrite Hscan.
  cbn [mbind option_bind].
  rewrite (array_tail_items (JSON.scan_once fuel) w1 w2 items r); [done..|].
  repeat (rewrite length_cons || rewrite length_app).
  match goal with |- context [length (items ≫= ?g)] =>
    pose proof (length_bind_ge g items) as Hl end.
  lapply Hl; [lia|]. intros x. by change (u ",") with [44].
Qed.

(** A list of tokens. *)
Lemma scan_dumps_list fuel level (items : list (str * value)) r :
  Forall (fun it => token (JSON.scan_once fuel) it.1 it.2) items ->
  JSON.scan_once (S fuel) (dumps_list level items.*1 ++ r) = Some (VList items.*2, r).
Proof using.
  intros Hit. destruct items as [|[e v] items].
  - change (dumps_list level [].*1 ++ r) with (91 :: 93 :: r).
    rewrite scan_once_S. change (91 =? 34) with false. change (91 =? 123) with false.
    change (91 =? 91) with true. cbv iota. rewrite skip_ws_stop by done.
    by change (93 =? 93) with true.
  - apply Forall_cons in Hit as [He Hit]. cbn [fst snd] in He.
    rewrite !fmap_cons. cbn [fst snd]. unfold dumps_list.
    rewrite join_cons_bind, bind_fmap_l, <- !app_assoc.
    by apply (scan_list_text fuel (newline_indent (S level)) (newline_indent (S level))
                (newline_indent level));
      try apply newline_indent_blank.
Qed.

Lemma pair_token scan (k e : str) v r :
  Forall (fun c => scalar c = true) k -> token scan e v ->
  JSON.pair scan (dumps_str k ++ u ": " ++ e ++ r) = Some ((k, v), r).
Proof using.
  intros Hk He. unfold dumps_str, dquote. rewrite <- !app_assoc. cbn [app JSON.pair].
  change (34 =? 34) with true. cbv iota.
  rewrite scanstring_escape by done. cbn [mbind option_bind].
  change (u ": " ++ e ++ r) with (58 :: 32 :: e ++ r).
  rewrite skip_ws_stop by done. change (58 =? 58) with true. cbv iota.
  change (32 :: e ++ r) with (replicate 1 32 ++ e ++ r).
  by rewrite skip_ws_spaces, (token_skip_ws _ _ _ _ He), (proj1 He).
Qed.

Lemma object_tail_S scan fuel s :
  JSON.object_tail scan (S fuel) s
  = match JSON.skip_ws s with
    | c :: s' =>
      if c =? 125 then Some ([], s')
      else if c =? 44 then
        '(kv, r) ← JSON.pair scan (JSON.skip_ws s');
        '(kvs, r') ← JSON.object_tail scan fuel r;
        Some (kv :: kvs, r')
      else None
    | [] => None
    end.
Proof using. done. Qed.

Lemma dumps_str_skip_ws (k r : str) : JSON.skip_ws (dumps_str k ++ r) = dumps_str k ++ r.
Proof using. unfold dumps_str, dquote. rewrite <- !app_assoc. by apply skip_ws_stop. Qed.

Lemma object_tail_items scan k level (items : list (str * (str * value))) r : forall fuel,
  Forall (fun it => Forall (fun c => scalar c = true) it.1
                    /\ token scan it.2.1 it.2.2) items ->
  (length items < fuel)%nat ->
  JSON.object_tail scan fuel
    ((items ≫= fun it => (u "," ++ newline_indent k)
                           ++ dumps_str it.1 ++ u ": " ++ it.2.1)
       ++ newline_indent level ++ u "}" ++ r)
  = Some ((fun it => (it.1, it.2.2)) <$> items, r).
Proof using.
  induction items as [|[key [e v]] items IH]; intros fuel Hit Hf;
    (destruct fuel as [|fuel]; [simpl in Hf; lia|]); rewrite object_tail_S.
  - rewrite bind_nil_l, app_nil_l, skip_ws_indent.
    change (u "}" ++ r) with (125 :: r).
    rewrite skip_ws_stop by done. by change (125 =? 125) with true.
  - apply Forall_cons in Hit as [[Hk He] Hit]. cbn [fst snd] in Hk, He.
    rewrite bind_cons. cbn [fst snd]. change (u ",") with [44].
    rewrite <- !app_assoc. cbn [app].
    rewrite skip_ws_stop by done.
    change (44 =? 125) with false. change (44 =? 44) with true. cbv iota.
    rewrite skip_ws_indent, dumps_str_skip_ws, (pair_token scan key e v _ Hk He).
    cbn [mbind option_bind].
    rewrite IH by (done || simpl in Hf; lia). done.
Qed.

(** A dictionary of tokens. *)
Lemma scan_dumps_dict fuel level (items : list (str * (str * value))) r :
  Forall (fun it => Forall (fun c => scalar c = true) it.1
                    /\ token (JSON.scan_once fuel) it.2.1 it.2.2) items ->
  JSON.scan_once (S fuel)
    (dumps_dict level ((fun it => (it.1, it.2.1)) <$> items) ++ r)
  = Some (VDict ((fun it => (it.1, it.2.2)) <$> items), r).
Proof using.
  intros Hit. destruct items as [|[key [e v]] items].
  - change (dumps_dict level _ ++ r) with (123 :: 125 :: r).
    rewrite scan_once_S. change (123 =? 34) with false. change (123 =? 123) with true.
    cbv iota. rewrite skip_ws_stop by done.
    by change (125 =? 125) with true.
  - apply Forall_cons in Hit as [[Hk He] Hit]. cbn [fst snd] in Hk, He.
    rewrite !fmap_cons. cbn [fst snd]. unfold dumps_dict.
    rewrite fmap_cons, join_cons_bind, !bind_fmap_l. cbn [fst snd].
    change (u "{") with [123].
    rewrite <- !app_assoc. cbn [app]. rewrite scan_once_S.
    change (123 =? 34) with false. change (123 =? 123) with true. cbv iota.
    rewrite skip_ws_indent, dumps_str_skip_ws.
    assert (Hd : exists t, dumps_str key = 34 :: t) by (by eexists).
    destruct Hd as [t Hd]. 
    pose proof (pair_token (JSON.scan_once fuel) key e v) as Hp.
    rewrite Hd in Hp |- *. cbn [app] in Hp |- *.
    change (34 =? 125) with false. cbv iota.
    rewrite Hp by done. cbn [mbind option_bind].
    rewrite (object_tail_items (JSON.scan_once fuel) (S level) level items r);
      [done|done|].
    repeat (rewrite length_cons || rewrite length_app).
    match goal with |- context [length (items ≫= ?g)] =>
      pose proof (length_bind_ge g items) as Hl end.
    lapply Hl; [lia|]. intros x. unfold compose. by change (u ",") with [44].
Qed.

Lemma token_dumps_str fuel (s : str) :
  Forall (fun c => scalar c = true) s -> token (JSON.scan_once (S fuel)) (dumps_str s) (VStr s).
Proof using.
  intros Hs. split; [intros r; by apply scan_dumps_str|].
  by exists 34, ((s ≫= escape_char) ++ dquote).
Qed.

Lemma token_dumps_list fuel level (items : list (str * value)) :
  Forall (fun it => token (JSON.scan_once fuel) it.1 it.2) items ->
  token (JSON.scan_once (S fuel)) (dumps_list level items.*1) (VList items.*2).
Proof using.
  intros Hit. split; [intros r; by apply scan_dumps_list|].
  destruct items as [|it items]; by eexists 91, _.
Qed.

Lemma token_dumps_dict fuel level (items : list (str * (str * value))) :
  Forall (fun it => Forall (fun c => scalar c = true) it.1
                    /\ token (JSON.scan_once fuel) it.2.1 it.2.2) items ->
  token (JSON.scan_once (S fuel))
    (dumps_dict level ((fun it => (it.1, it.2.1)) <$> items))
    (VDict ((fun it => (it.1, it.2.2)) <$> items)).
Proof using.
  intros Hit. split; [intros r; by apply scan_dumps_dict|].
  destruct items as [|it items]; by eexists 123, _.
Qed.

Lemma token_dumps_strs fuel level (l : list str) :
  Forall (Forall (fun c => scalar c = true)) l ->
  token (JSON.scan_once (S (S fuel))) (dumps_list level (dumps_str <$> l))
    (VList (VStr <$> l)).
Proof using.
  intros Hl.
  pose proof (token_dumps_list (S fuel) level ((fun s => (dumps_str s, VStr s)) <$> l)) as H.
  rewrite <- !list_fmap_compose in H. apply H.
  apply Forall_fmap. eapply Forall_impl; [done|].
  intros s Hs. by apply token_dumps_str.
Qed.

Lemma token_dumps_step fuel level (step : Step) :
  Forall (fun c => scalar c = true) (step_type step) ->
  Forall (fun c => scalar c = true) (content step) ->
  token (JSON.scan_once (S (S fuel))) (dumps_step level step) (step_value step).
Proof using.
  intros Ht Hc.
  apply (token_dumps_dict (S fuel) level
           [(u "type", (dumps_str (step_type step), VStr (step_type step)));
            (u "content", (dumps_str (content step), VStr (content step)))]).
  apply Forall_cons; split; [split; [key_ok | by apply token_dumps_str]|].
  apply Forall_cons; split; [split; [key_ok | by apply token_dumps_str]|].
  constructor.
Qed.

Lemma length_json_dumps (result : ResearchResult) : (3 <= length (json_dumps result))%nat.
Proof using.
  unfold json_dumps, dumps_dict. change (u "{") with [123]. unfold newline_indent, nl.
  rewrite !fmap_cons. repeat (rewrite length_cons || rewrite length_app).
  rewrite length_replicate. lia.
Qed.

Lemma loads_json_dumps (result : ResearchResult) :
  well_formed result -> JSON.loads (json_dumps result) = Some (result_value result).
Proof using.
  intros (Hq & Ha & Hs & Hst). unfold JSON.loads.
  pose proof (length_json_dumps result) as Hlen.
  destruct (length (json_dumps result)) as [|[|[|fuel]]] eqn:Hl; [lia..|].
  pose proof (token_dumps_dict (S (S (S fuel))) 0
    [(u "question", (dumps_str (question result), VStr (question result)));
     (u "answer", (dumps_str (answer result), VStr (answer result)));
     (u "sources", (dumps_list 1 (dumps_str <$> sources result),
                    VList (VStr <$> sources result)));
     (u "steps", (dumps_list 1 (dumps_step 2 <$> steps result),
                  VList (step_value <$> steps result)))]) as Htok.
  lapply Htok; [clear Htok; intros Htok|].
  - change (dumps_dict 0 _) with (json_dumps result) in Htok.
    change (VDict _) with (result_value result) in Htok.
    rewrite <- (app_nil_r (json_dumps result)) at 1.
    rewrite (token_skip_ws _ _ _ _ Htok), (proj1 Htok). done.
  - apply Forall_cons; split; [split; [key_ok | by apply token_dumps_str]|].
    apply Forall_cons; split; [split; [key_ok | by apply token_dumps_str]|].
    apply Forall_cons; split; [split; [key_ok | by apply token_dumps_strs]|].
    apply Forall_cons; split; [split; [key_ok|]|constructor].
    cbn [fst snd].
    pose proof (token_dumps_list (S (S fuel)) 1
                  ((fun st => (dumps_step 2 st, step_value st)) <$> steps result)) as H.
    rewrite <- !list_fmap_compose in H. apply H.
    apply Forall_fmap. eapply Forall_impl; [done|].
    intros st [? ?]. by apply token_dumps_step.
Qed.


(** ** The trace of a run *)

Lemma Forall_strip (P : N -> Prop) (s : str) : Forall P s -> Forall P (strip s).
Proof using.
  destruct (strip_spec s) as (pre & post & Hs & _). intros H.
  rewrite Hs in H. by apply Forall_app in H as [_ [H _]%Forall_app].
Qed.

Lemma slice_to_subseteq {A} (k : Z) (l : list A) x : x ∈ slice_to k l -> x ∈ l.
Proof using. unfold slice_to. destruct (k <? 0)%Z; apply subseteq_take. Qed.

(** The strings of a result are made of characters when the question, the
    texts of the model and the links of the provider are. *)
Lemma run_well_formed (self : ResearchAgent) (asked : str) (sched : list nat) :
  Forall (fun c => scalar c = true) asked ->
  (forall prompt, Forall (fun c => scalar c = true)
                    (generate_content (model self) (gemini_key self) prompt)) ->
  (forall q (r : gmap str str) v,
     r ∈ organic_results self q -> r !! u "link" = Some v ->
     Forall (fun c => scalar c = true) v) ->
  well_formed (run self asked sched).2.
Proof.
  intros Hq Hm Hp. rewrite run_snd. unfold well_formed.
  cbn [question answer sources steps].
  split; [done|]. split; [by apply Forall_strip|]. split.
  - apply Forall_forall. intros x.
    rewrite elem_of_elements, elem_of_list_to_set, combine_eq. cbn [snd].
    rewrite list_elem_of_bind. intros (b & Hx & Hb).
    apply list_elem_of_filter in Hx as [_ Hx].
    apply list_elem_of_fmap in Hx as (res & -> & Hres).
    rewrite blocks_eq in Hb. apply list_elem_of_fmap in Hb as (q & -> & _).
    cbn [results] in Hres. apply list_elem_of_fmap in Hres as (r & -> & Hr).
    apply slice_to_subseteq in Hr. unfold result_of. cbn [url].
    destruct (r !! u "link") as [v|] eqn:Hv; simpl; [by eapply Hp | constructor].
  - apply Forall_cons. split; [|by apply Forall_nil].
    cbn [step_type content]. split; [|by apply Forall_strip].
    apply (bool_decide_unpack _). by vm_compute.
Qed.

(** X6: the trace of a run decodes back to its result: for a question, model
    texts and provider links made of characters (no lone surrogate),
    [json.loads(json.dumps(result, indent=2))] is the dictionary [run]
    returned, with its question, answer, sources and steps. *)
Theorem trace_round_trip (self : ResearchAgent) (asked : str) (sched : list nat) :
  Forall (fun c => scalar c = true) asked ->
  (forall prompt, Forall (fun c => scalar c = true)
                    (generate_content (model self) (gemini_key self) prompt)) ->
  (forall q (r : gmap str str) v,
     r ∈ organic_results self q -> r !! u "link" = Some v ->
     Forall (fun c => scalar c = true) v) ->
  JSON.loads (json_dumps (run self asked sched).2)
  = Some (result_value (run self asked sched).2).
Proof. intros Hq Hm Hp. by apply loads_json_dumps, run_well_formed. Qed.

(** ** The command line *)

Lemma for_each_print {A} (g : A -> str) (l : list A) :
  for_each l (fun x => print (g x)) = (g <$> l, tt).
Proof using.
  unfold for_each.
  assert (H : forall acc : Out unit,
            foldl (fun acc x => acc;; print (g x)) acc l = (acc.1 ++ (g <$> l), tt)).
  { induction l as [|x l IH]; intros [o []].
    - simpl. by rewrite app_nil_r.
    - simpl foldl. rewrite IH. simpl. by rewrite <- app_assoc. }
  by rewrite H.
Qed.

Lemma py_or_None (o : option str) : py_or None o = o.
Proof using. done. Qed.

Lemma cli_inr (env : gmap str str) (cfg : Namespace) (files : gmap str str)
    (sched : list nat) (a : ResearchAgent) :
  init env (cfg_model cfg) (cfg_topn cfg) (cfg_debug cfg) None None = inr a ->
  let result := (run a (cfg_query cfg) sched).2 in
  cli env cfg files sched
  = inr ((run a (cfg_query cfg) sched).1
           ++ [replicate 80 61; answer result; replicate 80 61; nl ++ u "Sources:"]
           ++ ((fun url => u "- " ++ url) <$> sources result)
           ++ match cfg_outfile cfg with
              | Some outfile => [u "Saved detailed trace " ++ arrow ++ u " " ++ outfile]
              | None => []
              end,
         match cfg_outfile cfg with
         | Some outfile => <[outfile := json_dumps result]> files
         | None => files
         end).
Proof.
  intros Ha result. unfold cli. rewrite Ha. f_equal.
  match goal with |- ?p = _ => rewrite (surjective_pairing p) end.
  rewrite !out_bind_fst, !out_bind_snd, !for_each_print. fold result.
  cbn [fst snd print].
  destruct (cfg_outfile cfg) as [outfile|].
  - by rewrite out_bind_fst, out_bind_snd.
  - done.
Qed.

(** X7: the command line takes its credentials from the environment alone:
    whatever the arguments, it ends with the [RuntimeError] of the
    constructor, before any search and any output, if and only if one of the
    two variables is absent or empty. *)
Theorem cli_needs_environment (env : gmap str str) (cfg : Namespace)
    (files : gmap str str) (sched : list nat) :
  (unset (env !! u "GEMINI_API_KEY") \/ unset (env !! u "SERPAPI_API_KEY") ->
   cli env cfg files sched
   = inl (RuntimeError (u "GEMINI_API_KEY and SERPAPI_API_KEY must be set.")))
  /\ (~ (unset (env !! u "GEMINI_API_KEY") \/ unset (env !! u "SERPAPI_API_KEY")) ->
      exists out files', cli env cfg files sched = inr (out, files')).
Proof.
  split.
  - intros H. unfold cli. by rewrite init_inl.
  - intros H. eexists _, _. apply cli_inr. apply init_inr; rewrite py_or_None; tauto.
Qed.

(** X8: what the command line prints after the trace of [run]: a rule of 80
    equals signs, the answer, the rule again, the heading of the sources,
    one line per source, and the line of the saved file when, and only
    when, an output file was given.  Without the debug flag this is all it
    prints. *)
Theorem cli_output (env : gmap str str) (cfg : Namespace) (files : gmap str str)
    (sched : list nat) (a : ResearchAgent) :
  init env (cfg_model cfg) (cfg_topn cfg) (cfg_debug cfg) None None = inr a ->
  let result := (run a (cfg_query cfg) sched).2 in
  let report :=
    [replicate 80 61; answer result; replicate 80 61; nl ++ u "Sources:"]
    ++ ((fun url => u "- " ++ url) <$> sources result)
    ++ match cfg_outfile cfg with
       | Some outfile => [u "Saved detailed trace " ++ arrow ++ u " " ++ outfile]
       | None => []
       end in
  exists out files',
    cli env cfg files sched = inr (out, files')
    /\ out = (run a (cfg_query cfg) sched).1 ++ report
    /\ (cfg_debug cfg = false -> out = report)
    /\ length report
       = (4 + length (sources result)
          + match cfg_outfile cfg with Some _ => 1 | None => 0 end)%nat.
Proof.
  intros Ha result report. eexists _, _. split; [by apply cli_inr|].
  split; [done|]. split.
  - intros Hd. fold result. fold report.
    assert (Hdebug : debug a = false).
    { unfold init in Ha. destruct (negb _ || negb _); [done|].
      injection Ha as <-. done. }
    rewrite run_out, Hdebug. simpl.
    assert (Hp : (pool_map (search_web a) (queries a (cfg_query cfg)) sched).1 = []).
    { apply Permutation_nil_r. rewrite pool_map_out.
      induction (queries a (cfg_query cfg)) as [|q qs IH]; [done|].
      by rewrite bind_cons, search_web_out, Hdebug. }
    by rewrite Hp.
  - subst report. rewrite !length_app, length_fmap.
    destruct (cfg_outfile cfg); simpl; lia.
Qed.

(** X9: the files the command line leaves: without an output file none is
    touched; with the output file [p] only [p] changes, and it then holds a
    text that decodes, as JSON, to the dictionary [run] returned (when the
    strings of that dictionary are made of characters). *)
Theorem cli_files (env : gmap str str) (cfg : Namespace) (files : gmap str str)
    (sched : list nat) (a : ResearchAgent) :
  init env (cfg_model cfg) (cfg_topn cfg) (cfg_debug cfg) None None = inr a ->
  well_formed (run a (cfg_query cfg) sched).2 ->
  exists out files',
    cli env cfg files sched = inr (out, files')
    /\ (cfg_outfile cfg = None -> files' = files)
    /\ forall p, cfg_outfile cfg = Some p ->
         (forall p', p' <> p -> files' !! p' = files !! p')
         /\ exists text, files' !! p = Some text
              /\ JSON.loads text = Some (result_value (run a (cfg_query cfg) sched).2).
Proof.
  intros Ha Hwf. eexists _, _. split; [by apply cli_inr|]. split.
  - by intros ->.
  - intros p ->. split.
    + intros p' Hp'. by rewrite lookup_insert_ne.
    + eexists. split; [apply lookup_insert_eq|]. by apply loads_json_dumps.
Qed.

(** ** The chat page *)

Lemma script_with_agent env st user_input sched a :
  page_agent env st a ->
  script env st user_input sched
  = let messages0 := default [] (messages st) in
    let input := st_chat_input (u "Type here...") in
    if truthy user_input then
      let result := (run a (default [] user_input) sched).2 in
      {| page := heading ++ (show_message <$> messages0)
                 ++ [input;
                     st_chat_message (u "user") [st_write (default [] user_input)];
                     st_chat_message (u "assistant")
                       ([st_spinner (u "Searching from websites") [];
                         st_markdown (answer result)]
                        ++ match sources result with
                           | _ :: _ => show_sources (sources result)
                           | [] => []
                           end
                        ++ (if debug a
                            then [st_expander (u "Debug Trace")
                                    [st_code (json_dumps result) (u "json")]]
                            else []))];
         stdout := (run a (default [] user_input) sched).1;
         state := {| messages := Some (messages0 ++ exchange a (user_input, sched));
                     agent := Some a |};
         raised := None; rerun := true |}
    else
      {| page := heading ++ (show_message <$> messages0) ++ [input]; stdout := [];
         state := {| messages := Some messages0; agent := Some a |};
         raised := None; rerun := false |}.
Proof.
  intros Ha. unfold script, exchange. cbn [fst snd].
  assert (Hinit : match agent st with
                  | Some a => inr a
                  | None => init env (u "gemini-2.5-flash") 10 false None None
                  end = inr a).
  { destruct Ha as [->|[-> ->]]; done. }
  rewrite Hinit. cbv zeta. destruct (truthy user_input); [|done].
  destruct (run a (default [] user_input) sched) as [out result].
  cbn [fst snd]. by rewrite <- app_assoc.
Qed.

Lemma interact_with_agent env st user_input sched a :
  page_agent env st a ->
  let history := default [] (messages st) ++ exchange a (user_input, sched) in
  interact env st user_input sched
  = {| page := heading ++ (show_message <$> history)
               ++ [st_chat_input (u "Type here...")];
       stdout := if truthy user_input
                 then (run a (default [] user_input) sched).1 else [];
       state := {| messages := Some history; agent := Some a |};
       raised := None; rerun := false |}.
Proof.
  intros Ha history. unfold interact. rewrite (script_with_agent _ _ _ _ a Ha).
  cbv zeta. subst history. destruct (truthy user_input) eqn:Hi.
  - cbn [rerun state page stdout raised].
    rewrite (script_with_agent _ _ None [] a) by (by left).
    cbn [truthy page stdout state raised rerun messages default].
    by rewrite app_nil_r.
  - cbn [rerun]. unfold exchange. cbn [fst]. rewrite Hi. by rewrite app_nil_r.
Qed.

Lemma session_with_agent env a (inputs : list (option str * list nat)) : forall st,
  page_agent env st a -> inputs <> [] ->
  session env inputs st
  = {| messages := Some (default [] (messages st) ++ (inputs ≫= exchange a));
       agent := Some a |}.
Proof.
  unfold session. induction inputs as [|[i sched] inputs IH]; intros st Ha Hne; [done|].
  simpl foldl. rewrite (interact_with_agent _ _ _ _ a Ha). cbn [state].
  destruct inputs as [|i' inputs].
  - by rewrite bind_singleton.
  - rewrite IH by (done || by left). cbn [messages default].
    by rewrite (bind_cons _ (i, sched)), app_assoc.
Qed.

Lemma exchange_roles a (i : option str * list nat) :
  role <$> exchange a i = if truthy i.1 then [u "user"; u "assistant"] else [].
Proof. unfold exchange. by destruct (truthy i.1). Qed.

(** X10: the conversation the page keeps.  With both credentials in the
    environment, after any sequence of interactions from a new session the
    stored messages are, in order, the two messages of every accepted input:
    the user's text, then the agent's answer with its sources.  An empty
    input adds nothing, the roles alternate, and the agent built at the
    first run is the one of the whole session. *)
Theorem chat_history env a (inputs : list (option str * list nat)) :
  init env (u "gemini-2.5-flash") 10 false None None = inr a ->
  let st := session env inputs new_session in
  default [] (messages st) = inputs ≫= exchange a
  /\ role <$> default [] (messages st)
     = filter (fun i => truthy i.1 = true) inputs ≫= (fun _ => [u "user"; u "assistant"])
  /\ length (default [] (messages st))
     = (2 * length (filter (fun i => truthy i.1 = true) inputs))%nat
  /\ (inputs <> [] -> agent st = Some a).
Proof.
  intros Ha st.
  assert (Hm : default [] (messages st) = inputs ≫= exchange a).
  { subst st. destruct inputs as [|i inputs]; [done|].
    by rewrite (session_with_agent env a) by (done || by right). }
  assert (Hr : role <$> (inputs ≫= exchange a)
               = filter (fun i => truthy i.1 = true) inputs
                   ≫= (fun _ => [u "user"; u "assistant"])).
  { clear. induction inputs as [|i inputs IH]; [done|].
    rewrite bind_cons, fmap_app, IH, exchange_roles.
    destruct (truthy i.1) eqn:Hi.
    - by rewrite filter_cons_True, bind_cons by done.
    - by rewrite filter_cons_False by (by rewrite Hi). }
  split; [done|]. split; [by rewrite Hm|]. split.
  - rewrite <- (length_fmap role), Hm, Hr.
    generalize (filter (fun i : option str * list nat => truthy i.1 = true) inputs).
    clear. intros l. induction l as [|i l IH]; [done|].
    rewrite bind_cons, length_app, IH. simpl. lia.
  - intros Hne. subst st.
    by rewrite (session_with_agent env a) by (done || by right).
Qed.

(** X11: what the page shows after an interaction, when the agent could be
    built: the heading, one chat message per stored message in the order of
    the conversation, the new exchange included, and the input box; no
    exception is raised and the script does not ask to run again. *)
Theorem chat_page env st (user_input : option str) (sched : list nat) a :
  page_agent env st a ->
  let r := interact env st user_input sched in
  raised r = None
  /\ rerun r = false
  /\ page r = heading ++ (show_message <$> default [] (messages (state r)))
              ++ [st_chat_input (u "Type here...")]
  /\ default [] (messages (state r))
     = default [] (messages st) ++ exchange a (user_input, sched).
Proof.
  intros Ha r. subst r. by rewrite (interact_with_agent _ _ _ _ a Ha).
Qed.

Lemma script_without_agent env st (user_input : option str) (sched : list nat) e :
  agent st = None ->
  init env (u "gemini-2.5-flash") 10 false None None = inl e ->
  script env st user_input sched
  = {| page := heading; stdout := [];
       state := {| messages := Some (default [] (messages st)); agent := None |};
       raised := Some e; rerun := false |}.
Proof. intros Ha He. unfold script. by rewrite Ha, He. Qed.

(** X12: without the credentials the page never gets further than its
    heading: every run of the script ends with the [RuntimeError] of the
    constructor before the stored messages are shown and before the input
    box is created, so no text is ever accepted and the history stays
    empty. *)
Theorem chat_without_credentials env (inputs : list (option str * list nat)) :
  unset (env !! u "GEMINI_API_KEY") \/ unset (env !! u "SERPAPI_API_KEY") ->
  let st := session env inputs new_session in
  agent st = None
  /\ default [] (messages st) = []
  /\ forall (user_input : option str) (sched : list nat),
       let r := interact env st user_input sched in
       raised r = Some (RuntimeError (u "GEMINI_API_KEY and SERPAPI_API_KEY must be set."))
       /\ page r = heading
       /\ stdout r = []
       /\ messages (state r) = Some [].
Proof.
  intros Henv st.
  assert (He : init env (u "gemini-2.5-flash") 10 false None None
               = inl (RuntimeError (u "GEMINI_API_KEY and SERPAPI_API_KEY must be set.")))
    by (by apply init_inl).
  assert (Hstep : forall st' (i : option str) (sched : list nat),
            agent st' = None -> default [] (messages st') = [] ->
            interact env st' i sched
            = {| page := heading; stdout := [];
                 state := {| messages := Some []; agent := None |};
                 raised := Some (RuntimeError
                                   (u "GEMINI_API_KEY and SERPAPI_API_KEY must be set."));
                 rerun := false |}).
  { intros st' i sched Ha Hm. unfold interact.
    rewrite (script_without_agent _ _ _ _ _ Ha He). cbn [rerun]. by rewrite Hm. }
  assert (Hinv : agent st = None /\ default [] (messages st) = []).
  { subst st. unfold session.
    assert (H : forall st', agent st' = None -> default [] (messages st') = [] ->
              let st'' := foldl (fun st i => state (interact env st i.1 i.2)) st' inputs in
              agent st'' = None /\ default [] (messages st'') = []).
    { induction inputs as [|[i sched] inputs IH]; intros st' Ha Hm; [done|].
      simpl foldl. apply IH; by rewrite Hstep. }
    by apply H. }
  destruct Hinv as [Ha Hm]. split; [done|]. split; [done|].
  intros i sched r. subst r. by rewrite Hstep.
Qed.

Lemma init_debug env m n d gk sk a : init env m n d gk sk = inr a -> debug a = d.
Proof using.
  unfold init. destruct (negb _ || negb _); [done|]. by intros [= <-].
Qed.

Lemma run_out_quiet (self : ResearchAgent) (asked : str) (sched : list nat) :
  debug self = false -> (run self asked sched).1 = [].
Proof.
  intros Hd. rewrite run_out, Hd. simpl. rewrite app_nil_r.
  apply Permutation_nil_r. rewrite pool_map_out.
  induction (queries self asked) as [|q qs IH]; [done|].
  by rewrite bind_cons, search_web_out, Hd.
Qed.

Lemma existsb_Forall_false {A} (f : A -> bool) (l : list A) :
  Forall (fun x => f x = false) l -> existsb f l = false.
Proof using. induction 1 as [|x l Hx _ IH]; [done|]. simpl. by rewrite Hx, IH. Qed.

Lemma show_sources_plain (l : list str) :
  Forall (fun e => has_expander e = false) (show_sources l).
Proof using.
  unfold show_sources. apply Forall_cons. split; [done|].
  apply Forall_fmap, Forall_forall. by intros url _.
Qed.

Lemma show_message_plain (m : message) : has_expander (show_message m) = false.
Proof using.
  unfold show_message. destruct (bool_decide _); [done|].
  cbn [has_expander]. apply existsb_Forall_false.
  apply Forall_cons. split; [done|].
  destruct (msg_sources m) as [[|url urls]|]; [done| |done].
  apply show_sources_plain.
Qed.

(** The agent of a session, if any, has its debug flag off. *)
Lemma script_quiet env st (user_input : option str) (sched : list nat) :
  (forall a, agent st = Some a -> debug a = false) ->
  let r := script env st user_input sched in
  (forall a, agent (state r) = Some a -> debug a = false)
  /\ stdout r = []
  /\ Forall (fun e => has_expander e = false) (page r).
Proof.
  intros Hq r. subst r.
  assert (Hcase : (exists a, page_agent env st a /\ debug a = false)
                  \/ (exists e, agent st = None
                        /\ init env (u "gemini-2.5-flash") 10 false None None = inl e)).
  { destruct (agent st) as [a|] eqn:Ha.
    - left. exists a. split; [by left | by apply Hq].
    - destruct (init env (u "gemini-2.5-flash") 10 false None None) as [e|a] eqn:Hi.
      + right. by exists e.
      + left. exists a. split; [by right | by eapply init_debug]. }
  destruct Hcase as [(a & Ha & Hd)|(e & Ha & He)].
  - rewrite (script_with_agent _ _ _ _ a Ha). cbv zeta.
    assert (Hh : Forall (fun e => has_expander e = false)
                   (heading ++ (show_message <$> default [] (messages st)))).
    { apply Forall_app. split; [by repeat constructor|].
      apply Forall_fmap, Forall_forall. intros m _. apply show_message_plain. }
    destruct (truthy user_input); cbn [state stdout page agent].
    + split; [by intros ? [= <-]|]. split; [by apply run_out_quiet|].
      rewrite app_assoc. apply Forall_app. split; [done|].
      rewrite Hd, app_nil_r. repeat (apply Forall_cons; split; [try done|]);
        [|by apply Forall_nil].
      cbn [has_expander]. apply existsb_Forall_false.
      repeat (apply Forall_cons; split; [done|]).
      destruct (sources _) as [|url urls]; [done|]. apply show_sources_plain.
    + split; [by intros ? [= <-]|]. split; [done|].
      rewrite app_assoc. apply Forall_app. split; [done|]. by repeat constructor.
  - rewrite (script_without_agent _ _ _ _ _ Ha He). cbn [state stdout page agent].
    split; [done|]. split; [done|]. by repeat constructor.
Qed.

(** X13: the page never shows the debug trace.  Its agent is built with the
    debug flag off and is never replaced, so in every run of the script,
    after any sequence of interactions, [run] prints nothing and no element
    of the page is, or holds, the expander of the trace. *)
Theorem chat_debug_off env (inputs : list (option str * list nat))
    (user_input : option str) (sched : list nat) :
  let st := session env inputs new_session in
  let r := script env st user_input sched in
  (forall a, agent st = Some a -> debug a = false)
  /\ stdout r = []
  /\ Forall (fun e => has_expander e = false) (page r)
  /\ stdout (interact env st user_input sched) = []
  /\ Forall (fun e => has_expander e = false) (page (interact env st user_input sched)).
Proof.
  intros st r.
  assert (Hq : forall a, agent st = Some a -> debug a = false).
  { subst st. unfold session.
    assert (H : forall st', (forall a, agent st' = Some a -> debug a = false) ->
              forall a, agent (foldl (fun st i => state (interact env st i.1 i.2)) st' inputs)
                        = Some a -> debug a = false).
    { induction inputs as [|[i sch] inputs IH]; intros st' Hq; [done|].
      simpl foldl. apply IH. unfold interact.
      destruct (script_quiet env st' i sch Hq) as (Hq' & _).
      destruct (rerun (script env st' i sch)); [|done]. cbn [state].
      by destruct (script_quiet env _ None [] Hq') as (Hq'' & _). }
    by apply H. }
  destruct (script_quiet env st user_input sched Hq) as (Hq' & Hout & Hpage).
  split; [done|]. split; [done|]. split; [done|].
  unfold interact. fold r in Hq', Hout, Hpage |- *.
  destruct (rerun r); [|done]. cbn [stdout page].
  destruct (script_quiet env (state r) None [] Hq') as (_ & Hout' & Hpage').
  by rewrite Hout, Hout'.
Qed.

Lemma sources_distinct (self : ResearchAgent) (asked : str) (sched : list nat) :
  NoDup (sources (run self asked sched).2)
  /\ [] ∉ sources (run self asked sched).2.
Proof.
  rewrite run_snd. cbn [sources]. split; [apply NoDup_elements|].
  rewrite elem_of_elements, elem_of_list_to_set, combine_eq. cbn [snd].
  rewrite list_elem_of_bind. intros (b & Hx & _).
  by apply list_elem_of_filter in Hx as [Hne _].
Qed.

(** X14: the messages the page stores are well formed: a user's message has
    no sources, and an agent's message carries a list of sources without
    duplicates and without the empty string. *)
Theorem chat_sources env a (inputs : list (option str * list nat)) :
  init env (u "gemini-2.5-flash") 10 false None None = inr a ->
  Forall (fun m => match msg_sources m with
                   | Some l => role m = u "assistant" /\ NoDup l /\ [] ∉ l
                   | None => role m = u "user"
                   end)
    (default [] (messages (session env inputs new_session))).
Proof.
  intros Ha. destruct inputs as [|i0 inputs]; [by constructor|].
  rewrite (session_with_agent env a) by (done || by right).
  cbn [messages default app new_session].
  apply Forall_bind, Forall_forall. intros [i sched] _.
  unfold compose, exchange. cbn [fst snd].
  destruct (truthy i); [|by constructor].
  apply Forall_cons. split; [done|]. apply Forall_cons. split; [|by constructor].
  cbn [msg_sources role]. split; [done|]. apply sources_distinct.
Qed.

(** ** The decoder on the plans a model writes *)

Lemma after_other (p : str) a c s :
  (a =? c) = false -> JSON.after (a :: p) (c :: s) = None.
Proof using. intros H. simpl. by rewrite H. Qed.

(** A text that starts with a character no JSON value starts with is
    refused. *)
Lemma loads_not_value_start c s : value_start c = false -> JSON.loads (c :: s) = None.
Proof using.
  unfold value_start. rewrite !orb_false_iff.
  intros ((((((((((Hws & H34) & H91) & H123) & H45) & Hd) & Hn) & Ht) & Hf) & HN) & HI).
  unfold JSON.loads. cbn [JSON.skip_ws]. rewrite Hws.
  cbn [JSON.scan_once]. rewrite H34, H123, H91.
  change (u "null") with (110 :: u "ull").
  change (u "true") with (116 :: u "rue").
  change (u "false") with (102 :: u "alse").
  change (u "NaN") with (78 :: u "aN").
  change (u "Infinity") with (73 :: u "nfinity").
  change (u "-Infinity") with (45 :: u "Infinity").
  rewrite !after_other by (by rewrite N.eqb_sym).
  unfold JSON.number, JSON.int_part. rewrite H45.
  assert (H48 : (c =? 48) = false).
  { apply N.eqb_neq. by intros ->. }
  by rewrite H48, Hd.
Qed.

Lemma scanstring_plain_all (s r : str) :
  Forall plain s -> JSON.scanstring (s ++ 34 :: r) = Some (s, r).
Proof using.
  induction 1 as [|c s (H32 & H34 & H92) _ IH]; [done|].
  rewrite <- app_comm_cons, scanstring_plain, IH by done. done.
Qed.

Lemma token_quoted fuel (s : str) :
  Forall plain s -> token (JSON.scan_once (S fuel)) (dquote ++ s ++ dquote) (VStr s).
Proof using.
  intros Hs. split; [|by exists 34, (s ++ dquote)].
  intros r. unfold dquote. rewrite <- !app_assoc. cbn [app JSON.scan_once].
  change (34 =? 34) with true. cbv iota. by rewrite scanstring_plain_all.
Qed.

(** The strings after the first, each behind a comma, and the closing
    bracket. *)
Lemma array_tail_spaced fuel (items : list literal) : forall (w r : str) n,
  blank w -> Forall tidy items -> (length items < n)%nat ->
  JSON.array_tail (JSON.scan_once (S fuel)) n
    (w ++ (items ≫= fun it => u "," ++ spaced it) ++ u "]" ++ r)
  = Some (VStr <$> (chars <$> items), r).
Proof using.
  induction items as [|[pre s post] items IH]; intros w r n Hw Hit Hn;
    (destruct n as [|n]; [simpl in Hn; lia|]); rewrite array_tail_S.
  - rewrite bind_nil_l, app_nil_l, skip_ws_blank by done.
    change (u "]" ++ r) with (93 :: r).
    rewrite skip_ws_stop by done. by change (93 =? 93) with true.
  - apply Forall_cons in Hit as [(Hpre & Hs & Hpost) Hit]. cbn [lead chars trail] in *.
    rewrite bind_cons. unfold spaced at 1. cbn [lead chars trail].
    change (u ",") with [44]. rewrite skip_ws_blank by done.
    rewrite <- !app_assoc. cbn [app].
    rewrite skip_ws_stop by done.
    change (44 =? 93) with false. change (44 =? 44) with true. cbv iota.
    rewrite skip_ws_blank by done.
    pose proof (token_quoted fuel s Hs) as Htok.
    replace (dquote ++ s ++ dquote ++ post ++ (items ≫= (fun it => 44 :: spaced it)) ++ u "]" ++ r)
      with ((dquote ++ s ++ dquote) ++ post ++ (items ≫= (fun it => 44 :: spaced it)) ++ u "]" ++ r)
      by (by rewrite <- !app_assoc).
    rewrite (token_skip_ws _ _ _ _ Htok), (proj1 Htok).
    cbn [mbind option_bind].
    pose proof (IH post r n Hpost Hit ltac:(simpl in Hn; lia)) as H.
    change (u ",") with [44] in H.
    first [rewrite H | cbn [app] in H; rewrite H]. done.
Qed.

Lemma length_join_spaced (items : list literal) :
  (length items <= length (join (u ",") (spaced <$> items)))%nat.
Proof using.
  destruct items as [|it items]; [done|].
  rewrite fmap_cons, join_cons_bind, bind_fmap_l, length_app.
  match goal with |- context [length (items ≫= ?g)] =>
    pose proof (length_bind_ge g items) as Hl end.
  lapply Hl; [|intros x; by change (u ",") with [44]].
  unfold spaced, dquote. rewrite !length_app. simpl. lia.
Qed.

(** An array of plain strings decodes to them, whatever its layout. *)
Lemma loads_array_layout (w : str) (items : list literal) :
  blank w -> Forall tidy items ->
  JSON.loads (array_layout w items) = Some (VList (VStr <$> (chars <$> items))).
Proof using.
  intros Hw Hit. unfold JSON.loads, array_layout.
  change (u "[") with [91]. cbn [app].
  rewrite skip_ws_stop by done.
  rewrite scan_once_S.
  change (91 =? 34) with false. change (91 =? 123) with false.
  change (91 =? 91) with true. cbv iota.
  rewrite skip_ws_blank by done.
  set (n := length _).
  assert (Hn : (length items < n)%nat).
  { subst n. rewrite length_cons, !length_app.
    pose proof (length_join_spaced items). lia. }
  destruct n as [|n]; [lia|].
  destruct items as [|[pre s post] items].
  - cbn [fmap list_fmap join app]. change (u "]") with [93].
    rewrite skip_ws_stop by done. by change (93 =? 93) with true.
  - apply Forall_cons in Hit as [(Hpre & Hs & Hpost) Hit]. cbn [lead chars trail] in *.
    rewrite fmap_cons, join_cons_bind, bind_fmap_l.
    unfold spaced at 1. cbn [lead chars trail].
    rewrite <- !app_assoc, skip_ws_blank by done.
    unfold dquote at 1. cbn [app].
    rewrite skip_ws_stop by done.
    change (34 =? 93) with false. cbv iota.
    pose proof (token_quoted n s Hs) as [Htok _].
    specialize (Htok (post ++ (items ≫= (fun it => u "," ++ spaced it)) ++ u "]" ++ [])).
    unfold dquote in Htok at 1. rewrite <- !app_assoc in Htok. cbn [app] in Htok.
    rewrite app_nil_r in Htok. unfold compose. rewrite Htok.
    cbn [mbind option_bind].
    pose proof (array_tail_spaced n items post [] (S n) Hpost Hit ltac:(simpl in Hn; lia)) as H.
    rewrite app_nil_r in H. rewrite H. done.
Qed.

(** Joining, item by item. *)
Lemma join_cons (sep p : str) (ps : list str) :
  join sep (p :: ps) = p ++ match ps with [] => [] | _ :: _ => sep ++ join sep ps end.
Proof using. destruct ps; [by rewrite app_nil_r | done]. Qed.

End Agent.

(** C3, as the code has it: the answer of the model is stripped first; when
    decoding the stripped text fails, or gives a value that is no array, the
    plan is the one-entry list holding the stripped text.  The plan is
    always that list or the decoded array, so no decoding error reaches the
    caller.  For the answer [find recent scores] the plan is that text
    alone. *)
Theorem plan_fallback :
  (forall generate_content json_loads (self : ResearchAgent) (question : str),
     let text := search_queries_text generate_content self question in
     ((json_loads text = None \/ exists v, json_loads text = Some v /\ is_list v = false) ->
      queries generate_content json_loads self question = [VStr text])
     /\ (queries generate_content json_loads self question = [VStr text]
         \/ exists l, json_loads text = Some (VList l)
              /\ queries generate_content json_loads self question = l))
  /\ (forall generate_content (self : ResearchAgent) (question : str),
        generate_content (model self) (gemini_key self) (search_prompt self question)
        = u "find recent scores" ->
        queries generate_content JSON.loads self question
        = [VStr (u "find recent scores")]).
Proof.
  split.
  - intros gc loads self question text. unfold queries. fold text.
    destruct (loads text) as [v|] eqn:Hv.
    + destruct v; try (split; [done | by left]).
      split; [|right; eauto].
      intros [|(v & [= <-] & ?)]; done.
    + split; [done | by left].
  - intros gc self question Hgc. unfold queries, search_queries_text.
    rewrite Hgc. by vm_compute.
Qed.

(** C8, as the code has it: the rendered context is a function of the
    blocks in their order.  No block gives the empty text.  A block gives
    its section: the heading [### Search: query] and a line feed, then for
    each of its results in order the line [- title: snippet] and the line
    [(Source: url)], each closed by a line feed; a query that is a string
    stands as it is, any other value as the interpreter prints it.  The
    sections come in the order of the blocks, and every section after the
    first comes behind one more line feed: the sections are joined by
    [\n], not merely concatenated.  For blocks whose queries are strings
    the text does not depend on how the interpreter prints other values, so
    rendering the same blocks again gives the same text. *)
Theorem rendering_pure :
  (forall str_of, combined_context str_of [] = [])
  /\ (forall str_of (q : value) (rs : list SearchResult) (bs : list QueryBlock),
        combined_context str_of ({| query := q; results := rs |} :: bs)
        = u "### Search: " ++ match q with VStr s => s | _ => str_of q end ++ nl
          ++ (rs ≫= fun r => u "- " ++ title r ++ u ": " ++ snippet r ++ nl
                              ++ u "(Source: " ++ url r ++ u ")" ++ nl)
          ++ match bs with
             | [] => []
             | _ :: _ => nl ++ combined_context str_of bs
             end)
  /\ (forall str_of1 str_of2 (bs : list QueryBlock),
        Forall (fun b => is_str (query b) = true) bs ->
        combined_context str_of1 bs = combined_context str_of2 bs).
Proof.
  assert (H : forall str_of bs,
             combined_context str_of bs = join nl (section_text str_of <$> bs)).
  { intros str_of bs. unfold combined_context. by rewrite combine_eq. }
  split; [done|]. split.
  - intros so q rs bs. rewrite !H, fmap_cons, join_cons.
    unfold section_text at 1, entry_text, fmt. cbn [query results].
    rewrite <- !app_assoc. by destruct bs.
  - intros so1 so2 bs Hbs. rewrite !H. f_equal.
    apply Forall_fmap_ext_1. eapply Forall_impl; [done|].
    intros [q rs] Hq. unfold section_text. simpl in *. by destruct q.
Qed.

(** X15: a text that cannot be JSON gives a plan of one query, the text
    itself: this is what becomes of an empty answer (one empty query) and of
    an answer that starts with a character no JSON value starts with, such
    as the back quote of a Markdown code fence around the array. *)
Theorem plan_of_unquoted_text :
  forall generate_content (self : ResearchAgent) (question : str),
    let text := search_queries_text generate_content self question in
    (text = [] -> queries generate_content JSON.loads self question = [VStr []])
    /\ (forall c t, text = c :: t -> value_start c = false ->
        queries generate_content JSON.loads self question = [VStr (c :: t)]).
Proof.
  intros gc self question text. unfold queries. fold text. split.
  - by intros ->.
  - intros c t -> Hc. by rewrite loads_not_value_start.
Qed.

(** X16: when the stripped answer of the model is a JSON array of plain
    strings (no quote, no backslash, no control character), in any layout
    (white space behind the opening bracket, before and behind each string),
    the plan is those strings, as many as there are and in their order. *)
Theorem plan_of_string_array :
  forall generate_content (self : ResearchAgent) (question : str)
         (w : str) (items : list literal),
    search_queries_text generate_content self question = array_layout w items ->
    blank w -> Forall tidy items ->
    queries generate_content JSON.loads self question = VStr <$> (chars <$> items).
Proof.
  intros gc self question w items Htext Hw Hit. unfold queries.
  by rewrite Htext, loads_array_layout.
Qed.

(** ** Scenarios *)

Example loads_plain : JSON.loads (u "find recent scores") = None.
Proof. reflexivity. Qed.

Example loads_array :
  JSON.loads (Scenario.array_text [u "a"; u "b"; u "c"])
  = Some (VList [VStr (u "a"); VStr (u "b"); VStr (u "c")]).
Proof. reflexivity. Qed.

Example loads_misc :
  JSON.loads (u " [1, -2.5e3, null, true, {}, [[]], -Infinity] ")
  = Some (VList [VInt 1; VFloat (u "-2.5e3"); VNone; VBool true; VDict [];
                 VList [VList []]; VFloat (u "-Infinity")])
  /\ JSON.loads (u "[1,]") = None /\ JSON.loads (u "01") = None
  /\ JSON.loads (u "1.") = None /\ JSON.loads (u "-") = None
  /\ JSON.loads (u "[1] x") = None /\ JSON.loads (u "") = None.
Proof. repeat split; vm_compute; reflexivity. Qed.

Example strip_both_ends : strip (u "  a b " ++ nl) = u "a b".
Proof. reflexivity. Qed.

Example init_in_env n d :
  init Scenario.env (u "gemini-2.5-flash") n d None None = inr (Scenario.agent n d).
Proof. reflexivity. Qed.

Example init_without_keys n d :
  init ∅ (u "gemini-2.5-flash") n d (Some (u "g-key")) (Some [])
  = inl (RuntimeError (u "GEMINI_API_KEY and SERPAPI_API_KEY must be set.")).
Proof. reflexivity. Qed.

(** The end-to-end scenario of the specification: one planned query, one
    result, a fixed synthesis. *)
Example capital_of_France :
  let answer :=
    u "Paris is the capital of France. Sources: [Example](https://example.com/paris)" in
  (run (Scenario.model_stub (Scenario.array_text [u "capital of France"]) answer)
       (Scenario.provider_stub [Scenario.paris]) JSON.loads Scenario.str_stub
       (Scenario.agent 10 false) (u "What is the capital of France?") []).2
  = {| question := u "What is the capital of France?";
       answer := answer;
       sources := [u "https://example.com/paris"];
       steps := [{| step_type := u "assistant_answer"; content := answer |}] |}.
Proof. vm_compute. reflexivity. Qed.

(** Two blocks share a URL and one result has none: the URL is listed once. *)
Example shared_url_once :
  sources
    (run (Scenario.model_stub (Scenario.array_text [u "q1"; u "q2"]) (u "done"))
         (Scenario.provider_stub [Scenario.paris; Scenario.numbered 1])
         JSON.loads Scenario.str_stub
         (Scenario.agent 10 true) (u "x") [1%nat]).2
  = [u "https://example.com/paris"].
Proof. vm_compute. reflexivity. Qed.

(** The queries [q1], [q2], [q3] with the third search run first: the trace
    shows the order of the workers, the blocks keep the order of the
    queries. *)
Example retrieval_out_of_order :
  let line q := u "[DEBUG] " ++ arrow ++ u " SerpAPI query: '" ++ q ++ u "'" in
  let r := pool_map (search_web (Scenario.provider_stub []) Scenario.str_stub
                       (Scenario.agent 10 true))
             [VStr (u "q1"); VStr (u "q2"); VStr (u "q3")] [2; 0]%nat in
  r.1 = [line (u "q3"); line (u "q1"); line (u "q2")]
  /\ query <$> r.2 = [VStr (u "q1"); VStr (u "q2"); VStr (u "q3")].
Proof. split; vm_compute; reflexivity. Qed.

(** C3 as stated fails: the model's answer [find recent scores] followed by a
    line feed is no JSON, and the plan holds the stripped text, not the
    answer as the model gave it. *)
Lemma plan_fallback_raw_counterexample :
  JSON.loads (u "find recent scores" ++ nl) = None
  /\ queries (Scenario.model_stub (u "find recent scores" ++ nl) (u "done"))
       JSON.loads (Scenario.agent 10 false) (u "What were the scores?")
     = [VStr (u "find recent scores")]
  /\ [VStr (u "find recent scores")] <> [VStr (u "find recent scores" ++ nl)].
Proof. split; [|split]; [by vm_compute | by vm_compute | by intros [=]]. Qed.

Lemma plan_fallback_witness :
  (JSON.loads (u "find recent scores") = None
   \/ exists v, JSON.loads (u "find recent scores") = Some v /\ is_list v = false)
  /\ queries (Scenario.model_stub (u "find recent scores" ++ nl) (u "done"))
       JSON.loads (Scenario.agent 10 false) (u "What were the scores?")
     = [VStr (u "find recent scores")].
Proof.
  split; [by left|].
  apply (proj1 (proj1 plan_fallback
           (Scenario.model_stub (u "find recent scores" ++ nl) (u "done"))
           JSON.loads (Scenario.agent 10 false) (u "What were the scores?"))).
  by left.
Defined.

(** C4 as stated fails: for the answer [[]] the plan is empty, for an array
    of six strings it has six entries, and for [[1, null]] its entries are
    no strings. *)
Lemma plan_bounds_counterexample :
  queries (Scenario.model_stub (u "[]") (u "done")) JSON.loads
    (Scenario.agent 10 false) (u "x") = []
  /\ length (queries
       (Scenario.model_stub
          (Scenario.array_text [u "a"; u "b"; u "c"; u "d"; u "e"; u "f"]) (u "done"))
       JSON.loads (Scenario.agent 10 false) (u "x")) = 6%nat
  /\ queries (Scenario.model_stub (u "[1, null]") (u "done")) JSON.loads
       (Scenario.agent 10 false) (u "x") = [VInt 1; VNone].
Proof. repeat split; by vm_compute. Qed.

Lemma plan_is_decoded_array_witness :
  JSON.loads (Scenario.array_text [u "a"; u "b"])
  = Some (VList [VStr (u "a"); VStr (u "b")])
  /\ queries (Scenario.model_stub (Scenario.array_text [u "a"; u "b"]) (u "done"))
       JSON.loads (Scenario.agent 10 false) (u "x")
     = [VStr (u "a"); VStr (u "b")].
Proof.
  split; [reflexivity|].
  apply (proj1 (plan_is_decoded_array
           (Scenario.model_stub (Scenario.array_text [u "a"; u "b"]) (u "done"))
           JSON.loads (Scenario.agent 10 false) (u "x"))).
  reflexivity.
Defined.

Lemma search_web_truncates_witness :
  (0 <= topn (Scenario.agent 5 false))%Z
  /\ results (search_web (Scenario.provider_stub (Scenario.numbered <$> seq 0 20))
                Scenario.str_stub (Scenario.agent 5 false) (VStr (u "q"))).2
     = result_of <$> take 5 (Scenario.numbered <$> seq 0 20).
Proof.
  assert (H : (0 <= topn (Scenario.agent 5 false))%Z) by done.
  split; [exact H|].
  destruct (search_web_truncates (Scenario.provider_stub (Scenario.numbered <$> seq 0 20))
              Scenario.str_stub (Scenario.agent 5 false) (VStr (u "q")) H)
    as (_ & _ & _ & H5).
  apply H5; reflexivity.
Defined.

Lemma result_defaults_witness :
  slice_to 10 (organic_results
                 (Scenario.provider_stub [Scenario.paris; Scenario.numbered 1])
                 (Scenario.agent 10 false) (VStr (u "q"))) !! 1%nat
  = Some (Scenario.numbered 1)
  /\ exists res,
       results (search_web (Scenario.provider_stub [Scenario.paris; Scenario.numbered 1])
                  Scenario.str_stub (Scenario.agent 10 false) (VStr (u "q"))).2 !! 1%nat
       = Some res
       /\ title res = u "1" /\ snippet res = u "(no snippet)" /\ url res = [].
Proof.
  split; [reflexivity|].
  destruct (result_defaults
              (Scenario.provider_stub [Scenario.paris; Scenario.numbered 1])
              Scenario.str_stub (Scenario.agent 10 false) (VStr (u "q")) 1
              (Scenario.numbered 1) eq_refl)
    as (res & Hres & Ht & _ & _ & Hs & _ & Hu).
  exists res. split; [exact Hres|].
  split; [apply Ht; reflexivity|]. split; [apply Hs | apply Hu]; reflexivity.
Defined.

Lemma rendering_pure_witness :
  Forall (fun b => is_str (query b) = true) [Scenario.paris_block; Scenario.rome_block]
  /\ combined_context Scenario.str_stub [Scenario.paris_block; Scenario.rome_block]
     = combined_context (fun _ => []) [Scenario.paris_block; Scenario.rome_block]
  /\ combined_context Scenario.str_stub [Scenario.paris_block; Scenario.rome_block]
     = u "### Search: capital of France" ++ nl
       ++ u "- Paris: Paris is the capital..." ++ nl
       ++ u "(Source: https://example.com/paris)" ++ nl
       ++ u "- (untitled): (no snippet)" ++ nl
       ++ u "(Source: )" ++ nl
       ++ nl
       ++ u "### Search: capital of Italy" ++ nl
       ++ u "- Rome: Rome is the capital..." ++ nl
       ++ u "(Source: https://example.com/rome)" ++ nl.
Proof.
  assert (H : Forall (fun b => is_str (query b) = true)
                [Scenario.paris_block; Scenario.rome_block])
    by (repeat constructor).
  split; [exact H|].
  split; [exact (proj2 (proj2 rendering_pure) _ _ _ H)|].
  unfold Scenario.paris_block, Scenario.rome_block.
  rewrite (proj1 (proj2 rendering_pure) Scenario.str_stub).
  rewrite (proj1 (proj2 rendering_pure) Scenario.str_stub).
  reflexivity.
Defined.

(** The text of two blocks is not the text of the first followed by the
    text of the second: a line feed stands between the two sections. *)
Lemma rendering_concatenation_counterexample :
  combined_context Scenario.str_stub [Scenario.paris_block]
  = u "### Search: capital of France" ++ nl
    ++ u "- Paris: Paris is the capital..." ++ nl
    ++ u "(Source: https://example.com/paris)" ++ nl
    ++ u "- (untitled): (no snippet)" ++ nl
    ++ u "(Source: )" ++ nl
  /\ combined_context Scenario.str_stub [Scenario.rome_block]
     = u "### Search: capital of Italy" ++ nl
       ++ u "- Rome: Rome is the capital..." ++ nl
       ++ u "(Source: https://example.com/rome)" ++ nl
  /\ combined_context Scenario.str_stub [Scenario.paris_block; Scenario.rome_block]
     <> combined_context Scenario.str_stub [Scenario.paris_block]
        ++ combined_context Scenario.str_stub [Scenario.rome_block].
Proof.
  split; [reflexivity|]. split; [reflexivity|]. vm_compute. intros [=].
Qed.

Lemma debug_does_not_alter_result_witness :
  init Scenario.env (u "gemini-2.5-flash") 10 true None None
  = inr (Scenario.agent 10 true)
  /\ init Scenario.env (u "gemini-2.5-flash") 10 false None None
     = inr (Scenario.agent 10 false)
  /\ (run (Scenario.model_stub (Scenario.array_text [u "q1"; u "q2"]) (u "done"))
          (Scenario.provider_stub [Scenario.paris]) JSON.loads Scenario.str_stub
          (Scenario.agent 10 true) (u "x") [1%nat]).2
     = (run (Scenario.model_stub (Scenario.array_text [u "q1"; u "q2"]) (u "done"))
          (Scenario.provider_stub [Scenario.paris]) JSON.loads Scenario.str_stub
          (Scenario.agent 10 false) (u "x") []).2.
Proof.
  split; [reflexivity|]. split; [reflexivity|].
  exact (debug_does_not_alter_result _ _ _ _ Scenario.env (u "gemini-2.5-flash") 10
           None None true false _ _ (u "x") [1%nat] [] eq_refl eq_refl).
Defined.

Lemma topn_unvalidated_witness :
  ~ (unset None /\ unset (Scenario.env !! u "GEMINI_API_KEY"))
  /\ ~ (unset None /\ unset (Scenario.env !! u "SERPAPI_API_KEY"))
  /\ exists self,
       init Scenario.env (u "gemini-2.5-flash") (-2) false None None = inr self
       /\ topn self = (-2)%Z.
Proof.
  assert (Hg : ~ (unset None /\ unset (Scenario.env !! u "GEMINI_API_KEY"))).
  { intros [_ [H|H]]; vm_compute in H; discriminate. }
  assert (Hs : ~ (unset None /\ unset (Scenario.env !! u "SERPAPI_API_KEY"))).
  { intros [_ [H|H]]; vm_compute in H; discriminate. }
  split; [exact Hg|]. split; [exact Hs|].
  destruct (topn_unvalidated (Scenario.provider_stub []) Scenario.str_stub
              Scenario.env (u "gemini-2.5-flash") (-2) false None None Hg Hs)
    as (self & Hself & Hn & _).
  exists self. split; [exact Hself | exact Hn].
Defined.

(** With [topn = -2] and five records the block keeps the first three. *)
Example negative_topn_drops_the_last :
  results (search_web (Scenario.provider_stub (Scenario.numbered <$> seq 0 5))
             Scenario.str_stub (Scenario.agent (-2) false) (VStr (u "q"))).2
  = result_of <$> (Scenario.numbered <$> seq 0 3).
Proof. vm_compute. reflexivity. Qed.

(** ** Scenarios of the further properties *)

Lemma run_quiet_without_debug_witness :
  debug (Scenario.agent 10 false) = false
  /\ (run (Scenario.model_stub (Scenario.array_text [u "q1"; u "q2"]) (u "done"))
        (Scenario.provider_stub [Scenario.paris]) JSON.loads Scenario.str_stub
        (Scenario.agent 10 false) (u "x") [1%nat]).1 = [].
Proof.
  split; [reflexivity|].
  exact (proj1 (run_quiet_without_debug _ _ JSON.loads _ (Scenario.agent 10 false)
                  (u "x") [1%nat] eq_refl)).
Defined.


Lemma sources_bounded_witness :
  (0 <= topn (Scenario.agent 10 false))%Z
  /\ (length (sources
        (run (Scenario.model_stub (Scenario.array_text [u "q1"; u "q2"]) (u "done"))
           (Scenario.provider_stub [Scenario.paris]) JSON.loads Scenario.str_stub
           (Scenario.agent 10 false) (u "x") []).2) <= 2 * 10)%nat.
Proof.
  assert (H : (0 <= topn (Scenario.agent 10 false))%Z) by done.
  split; [exact H|].
  exact (sources_bounded
           (Scenario.model_stub (Scenario.array_text [u "q1"; u "q2"]) (u "done"))
           (Scenario.provider_stub [Scenario.paris]) JSON.loads Scenario.str_stub
           (Scenario.agent 10 false) (u "x") [] H).
Defined.

Lemma empty_plan_witness :
  queries (Scenario.model_stub (u "[]") (u "done")) JSON.loads
    (Scenario.agent 10 false) (u "x") = []
  /\ blocks (Scenario.model_stub (u "[]") (u "done"))
       (Scenario.provider_stub [Scenario.paris]) JSON.loads Scenario.str_stub
       (Scenario.agent 10 false) (u "x") [] = [].
Proof.
  split; [reflexivity|].
  exact (proj1 (empty_plan (Scenario.model_stub (u "[]") (u "done"))
                  (Scenario.provider_stub [Scenario.paris]) JSON.loads Scenario.str_stub
                  (Scenario.agent 10 false) (u "x") [] eq_refl)).
Defined.

Lemma model_stub_scalar (prompt : str) :
  Forall (fun c => scalar c = true)
    (Scenario.model_stub (Scenario.array_text [u "q1"; u "q2"]) (u " done ")
       (model (Scenario.agent 10 false)) (gemini_key (Scenario.agent 10 false)) prompt).
Proof.
  unfold Scenario.model_stub.
  destruct (bool_decide _); apply (bool_decide_unpack _); by vm_compute.
Defined.

Lemma provider_stub_scalar (q : value) (r : gmap str str) (v : str) :
  r ∈ organic_results (Scenario.provider_stub [Scenario.paris])
        (Scenario.agent 10 false) q ->
  r !! u "link" = Some v -> Forall (fun c => scalar c = true) v.
Proof.
  change (organic_results _ _ q) with [Scenario.paris].
  intros ->%list_elem_of_singleton Hv. vm_compute in Hv. injection Hv as <-.
  apply (bool_decide_unpack _). by vm_compute.
Defined.

Lemma trace_round_trip_witness :
  Forall (fun c => scalar c = true) (u "x")
  /\ JSON.loads (json_dumps
       (run (Scenario.model_stub (Scenario.array_text [u "q1"; u "q2"]) (u " done "))
          (Scenario.provider_stub [Scenario.paris]) JSON.loads Scenario.str_stub
          (Scenario.agent 10 false) (u "x") []).2)
     = Some (VDict [(u "question", VStr (u "x")); (u "answer", VStr (u "done"));
                    (u "sources", VList [VStr (u "https://example.com/paris")]);
                    (u "steps",
                     VList [VDict [(u "type", VStr (u "assistant_answer"));
                                   (u "content", VStr (u "done"))]])]).
Proof.
  assert (Hq : Forall (fun c => scalar c = true) (u "x"))
    by (apply (bool_decide_unpack _); by vm_compute).
  split; [exact Hq|].
  rewrite (trace_round_trip
             (Scenario.model_stub (Scenario.array_text [u "q1"; u "q2"]) (u " done "))
             (Scenario.provider_stub [Scenario.paris]) JSON.loads Scenario.str_stub
             (Scenario.agent 10 false) (u "x") [] Hq model_stub_scalar
             provider_stub_scalar).
  by vm_compute.
Defined.

Lemma cli_needs_environment_witness :
  (unset ((∅ : gmap str str) !! u "GEMINI_API_KEY")
   \/ unset ((∅ : gmap str str) !! u "SERPAPI_API_KEY"))
  /\ cli (Scenario.model_stub (u "[]") (u "done")) (Scenario.provider_stub [])
       JSON.loads Scenario.str_stub ∅ Scenario.cfg ∅ []
     = inl (RuntimeError (u "GEMINI_API_KEY and SERPAPI_API_KEY must be set.")).
Proof.
  assert (H : unset ((∅ : gmap str str) !! u "GEMINI_API_KEY")
              \/ unset ((∅ : gmap str str) !! u "SERPAPI_API_KEY"))
    by (left; by left).
  split; [exact H|].
  exact (proj1 (cli_needs_environment (Scenario.model_stub (u "[]") (u "done"))
                  (Scenario.provider_stub []) JSON.loads Scenario.str_stub
                  ∅ Scenario.cfg ∅ []) H).
Defined.

Lemma cli_output_witness :
  init Scenario.env (cfg_model Scenario.cfg) (cfg_topn Scenario.cfg)
    (cfg_debug Scenario.cfg) None None = inr (Scenario.agent 10 false)
  /\ exists files',
       cli (Scenario.model_stub (Scenario.array_text [u "q1"]) (u "done"))
         (Scenario.provider_stub [Scenario.paris]) JSON.loads Scenario.str_stub
         Scenario.env Scenario.cfg ∅ []
       = inr ([replicate 80 61; u "done"; replicate 80 61; nl ++ u "Sources:";
               u "- https://example.com/paris";
               u "Saved detailed trace " ++ arrow ++ u " out.json"], files').
Proof.
  split; [reflexivity|].
  destruct (cli_output (Scenario.model_stub (Scenario.array_text [u "q1"]) (u "done"))
              (Scenario.provider_stub [Scenario.paris]) JSON.loads Scenario.str_stub
              Scenario.env Scenario.cfg ∅ [] (Scenario.agent 10 false) eq_refl)
    as (out & files' & Hcli & _ & Hout & _).
  exists files'. rewrite Hcli. rewrite (Hout eq_refl). by vm_compute.
Defined.

Lemma scenario_well_formed :
  well_formed
    (run (Scenario.model_stub (Scenario.array_text [u "q1"]) (u "done"))
       (Scenario.provider_stub [Scenario.paris]) JSON.loads Scenario.str_stub
       (Scenario.agent 10 false) (cfg_query Scenario.cfg) []).2.
Proof.
  unfold well_formed. repeat split; apply (bool_decide_unpack _); by vm_compute.
Defined.

Lemma cli_files_witness :
  init Scenario.env (cfg_model Scenario.cfg) (cfg_topn Scenario.cfg)
    (cfg_debug Scenario.cfg) None None = inr (Scenario.agent 10 false)
  /\ exists out files' text,
       cli (Scenario.model_stub (Scenario.array_text [u "q1"]) (u "done"))
         (Scenario.provider_stub [Scenario.paris]) JSON.loads Scenario.str_stub
         Scenario.env Scenario.cfg {[ u "notes.txt" := u "kept" ]} []
       = inr (out, files')
       /\ files' !! u "notes.txt" = Some (u "kept")
       /\ files' !! u "out.json" = Some text
       /\ JSON.loads text
          = Some (VDict [(u "question", VStr (u "x")); (u "answer", VStr (u "done"));
                         (u "sources", VList [VStr (u "https://example.com/paris")]);
                         (u "steps",
                          VList [VDict [(u "type", VStr (u "assistant_answer"));
                                        (u "content", VStr (u "done"))]])]).
Proof.
  split; [reflexivity|].
  destruct (cli_files (Scenario.model_stub (Scenario.array_text [u "q1"]) (u "done"))
              (Scenario.provider_stub [Scenario.paris]) JSON.loads Scenario.str_stub
              Scenario.env Scenario.cfg {[ u "notes.txt" := u "kept" ]} []
              (Scenario.agent 10 false) eq_refl scenario_well_formed)
    as (out & files' & Hcli & _ & Hfiles).
  destruct (Hfiles (u "out.json") eq_refl) as (Hother & text & Htext & Hloads).
  exists out, files', text. split; [exact Hcli|]. split.
  - rewrite Hother; [reflexivity | by vm_compute].
  - split; [exact Htext|]. rewrite Hloads. by vm_compute.
Defined.

Lemma chat_history_witness :
  init Scenario.env (u "gemini-2.5-flash") 10 false None None
  = inr (Scenario.agent 10 false)
  /\ role <$> default []
       (messages
          (session (Scenario.model_stub (Scenario.array_text [u "q1"]) (u "done"))
             (Scenario.provider_stub [Scenario.paris]) JSON.loads Scenario.str_stub
             Scenario.env Scenario.inputs new_session))
     = [u "user"; u "assistant"; u "user"; u "assistant"].
Proof.
  split; [reflexivity|].
  destruct (chat_history (Scenario.model_stub (Scenario.array_text [u "q1"]) (u "done"))
              (Scenario.provider_stub [Scenario.paris]) JSON.loads Scenario.str_stub
              Scenario.env (Scenario.agent 10 false) Scenario.inputs eq_refl)
    as (_ & Hroles & _).
  rewrite Hroles. reflexivity.
Defined.

Lemma chat_page_witness :
  page_agent Scenario.env new_session (Scenario.agent 10 false)
  /\ rerun (interact (Scenario.model_stub (Scenario.array_text [u "q1"]) (u "done"))
              (Scenario.provider_stub [Scenario.paris]) JSON.loads Scenario.str_stub
              Scenario.env new_session (Some (u "hi")) []) = false.
Proof.
  assert (H : page_agent Scenario.env new_session (Scenario.agent 10 false))
    by (right; split; reflexivity).
  split; [exact H|].
  exact (proj1 (proj2 (chat_page
           (Scenario.model_stub (Scenario.array_text [u "q1"]) (u "done"))
           (Scenario.provider_stub [Scenario.paris]) JSON.loads Scenario.str_stub
           Scenario.env new_session (Some (u "hi")) [] (Scenario.agent 10 false) H))).
Defined.

Lemma chat_without_credentials_witness :
  (unset ((∅ : gmap str str) !! u "GEMINI_API_KEY")
   \/ unset ((∅ : gmap str str) !! u "SERPAPI_API_KEY"))
  /\ default []
       (messages
          (session (Scenario.model_stub (Scenario.array_text [u "q1"]) (u "done"))
             (Scenario.provider_stub [Scenario.paris]) JSON.loads Scenario.str_stub
             ∅ Scenario.inputs new_session)) = [].
Proof.
  assert (H : unset ((∅ : gmap str str) !! u "GEMINI_API_KEY")
              \/ unset ((∅ : gmap str str) !! u "SERPAPI_API_KEY"))
    by (left; by left).
  split; [exact H|].
  exact (proj1 (proj2 (chat_without_credentials
           (Scenario.model_stub (Scenario.array_text [u "q1"]) (u "done"))
           (Scenario.provider_stub [Scenario.paris]) JSON.loads Scenario.str_stub
           ∅ Scenario.inputs H))).
Defined.

Lemma chat_sources_witness :
  init Scenario.env (u "gemini-2.5-flash") 10 false None None
  = inr (Scenario.agent 10 false)
  /\ Forall (fun m => match msg_sources m with
                      | Some l => role m = u "assistant" /\ NoDup l /\ [] ∉ l
                      | None => role m = u "user"
                      end)
       (default []
          (messages
             (session
                (Scenario.model_stub (Scenario.array_text [u "q1"; u "q2"]) (u "done"))
                (Scenario.provider_stub [Scenario.paris]) JSON.loads Scenario.str_stub
                Scenario.env Scenario.inputs new_session))).
Proof.
  split; [reflexivity|].
  exact (chat_sources
           (Scenario.model_stub (Scenario.array_text [u "q1"; u "q2"]) (u "done"))
           (Scenario.provider_stub [Scenario.paris]) JSON.loads Scenario.str_stub
           Scenario.env (Scenario.agent 10 false) Scenario.inputs eq_refl).
Defined.

(** The conversation of [Scenario.inputs]: two exchanges, the sources of the
    two blocks listed once. *)
Example chat_of_two_texts :
  default []
    (messages
       (session (Scenario.model_stub (Scenario.array_text [u "q1"; u "q2"]) (u "done"))
          (Scenario.provider_stub [Scenario.paris]) JSON.loads Scenario.str_stub
          Scenario.env Scenario.inputs new_session))
  = [{| role := u "user"; msg_content := u "hi"; msg_sources := None |};
     {| role := u "assistant"; msg_content := u "done";
        msg_sources := Some [u "https://example.com/paris"] |};
     {| role := u "user"; msg_content := u "x"; msg_sources := None |};
     {| role := u "assistant"; msg_content := u "done";
        msg_sources := Some [u "https://example.com/paris"] |}].
Proof. vm_compute. reflexivity. Qed.

Lemma plan_of_unquoted_text_witness :
  value_start 96 = false
  /\ queries (Scenario.model_stub Scenario.fenced (u "done")) JSON.loads
       (Scenario.agent 10 false) (u "x") = [VStr Scenario.fenced].
Proof.
  split; [reflexivity|].
  destruct (plan_of_unquoted_text (Scenario.model_stub Scenario.fenced (u "done"))
              (Scenario.agent 10 false) (u "x")) as [_ H].
  exact (H 96 _ eq_refl eq_refl).
Defined.

Lemma plan_of_string_array_witness :
  blank (u " ") /\ Forall tidy Scenario.uneven
  /\ array_layout (u " ") Scenario.uneven
     = u "[ " ++ dquote ++ u "a" ++ dquote ++ u "," ++ dquote ++ u "b" ++ dquote
       ++ u " ," ++ nl ++ u " " ++ dquote ++ u "c" ++ dquote ++ u "]"
  /\ queries (Scenario.model_stub (array_layout (u " ") Scenario.uneven) (u "done"))
       JSON.loads (Scenario.agent 10 false) (u "x")
     = [VStr (u "a"); VStr (u "b"); VStr (u "c")].
Proof.
  assert (Hw : blank (u " ")) by (by repeat constructor).
  assert (H : Forall tidy Scenario.uneven).
  { repeat constructor; by vm_compute. }
  split; [exact Hw|]. split; [exact H|]. split; [reflexivity|].
  exact (plan_of_string_array
           (Scenario.model_stub (array_layout (u " ") Scenario.uneven) (u "done"))
           (Scenario.agent 10 false) (u "x") (u " ") Scenario.uneven eq_refl Hw H).
Defined.
